(** * npm-git-diff: the unified-diff parser of [src/index.ts]

    A shallow embedding of [getChanges] and of the JavaScript string and
    array primitives it relies on, followed by the properties of the
    parser.  Strings are sequences of characters ([String.string]); every
    delimiter the parser looks for is ASCII, so the embedding does not depend
    on how non-ASCII text is encoded.  Only [console.error] is modelled of
    the console: [info], [log] and [debug] have no influence on the result. *)

From Stdlib Require Import List String Ascii NArith Arith Bool Lia.
From Stdlib Require Import DecimalString.
From Stdlib Require Import DecimalPos DecimalN.
Import ListNotations.

Local Open Scope string_scope.
Local Open Scope list_scope.

(** ** JavaScript primitives *)

Module JS.

(** Truthiness of a string, as used by [filter((n) => n)]. *)
Definition truthy (s : string) : bool :=
  match s with
  | EmptyString => false
  | String _ _ => true
  end.

(** [lit p s]: the literal [p] read at the start of [s]; the text that
    follows it, or [None] when [s] does not start with [p]. *)
Fixpoint lit (p s : string) : option string :=
  match p with
  | EmptyString => Some s
  | String a p' =>
      match s with
      | EmptyString => None
      | String b s' => if Ascii.eqb a b then lit p' s' else None
      end
  end.

(** [s.startsWith(p)] *)
Definition startsWith (s p : string) : bool :=
  match lit p s with
  | Some _ => true
  | None => false
  end.

(** A separator matcher for [split]: tried at the start of a suffix of the
    subject, it answers the captures of the match and the number of
    characters the match spans. *)
Definition matcher : Type := string -> option (list string * nat).

(** The scan of [String.prototype.split].  [cur] is the text between the end
    of the last separator (index [p] of the standard) and the scanning
    position [q]; [skip] counts the characters of a separator that was just
    matched and that the scan steps over.  An empty match is a separator
    only when [q <> p], that is when [cur] is not empty.  The separators of
    the parser never match the empty string, so the special case of an empty
    subject does not arise: the scan answers the subject itself. *)
Fixpoint splitScan (m : matcher) (s : string) (skip : nat) (cur : string)
  : list string :=
  match s with
  | EmptyString => [cur]
  | String c s' =>
      match skip with
      | S k => splitScan m s' k cur
      | O =>
          match m s with
          | Some (caps, S k) => cur :: caps ++ splitScan m s' k ""
          | Some (caps, O) =>
              if truthy cur
              then cur :: caps ++ splitScan m s' 0 (String c "")
              else splitScan m s' 0 (String c "")
          | None => splitScan m s' 0 (cur ++ String c "")
          end
      end
  end.

Definition splitWith (m : matcher) (s : string) : list string :=
  splitScan m s 0 "".

(** The matcher of a literal separator. *)
Definition literal (sep : string) : matcher :=
  fun s => match lit sep s with
           | Some _ => Some ([], String.length sep)
           | None => None
           end.

(** [s.split(sep)] for a literal, non-empty separator. *)
Definition split (sep : string) (s : string) : list string :=
  splitWith (literal sep) s.

(** [a.join(sep)] *)
Definition join (sep : string) (a : list string) : string :=
  String.concat sep a.

(** [s.replace(p, "")] for a literal [p]: the first occurrence is removed. *)
Fixpoint removeFirst (p s : string) : string :=
  match lit p s with
  | Some r => r
  | None =>
      match s with
      | EmptyString => EmptyString
      | String c s' => String c (removeFirst p s')
      end
  end.

(** [s.replace(/c ?/, "")] for a marker character [c]: the first [c] is
    removed together with one space that follows it, if there is one. *)
Fixpoint removeMarker (c : ascii) (s : string) : string :=
  match s with
  | EmptyString => EmptyString
  | String a s' =>
      if Ascii.eqb a c
      then match s' with
           | String " " s'' => s''
           | _ => s'
           end
      else String a (removeMarker c s')
  end.

(** [s.replace(/ ? ?/, "")]: the pattern matches at index 0 (possibly the
    empty string) and greedily takes up to two spaces. *)
Definition removeSpaces (s : string) : string :=
  match s with
  | String " " (String " " r) => r
  | String " " r => r
  | _ => s
  end.

(** JavaScript numbers, as far as the parser meets them: [NaN] and the
    non-negative integers. *)
Inductive number : Type :=
| NaN
| Num (n : N).

Definition isDigit (c : ascii) : bool :=
  (48 <=? nat_of_ascii c)%nat && (nat_of_ascii c <=? 57)%nat.

Definition digitValue (c : ascii) : N := N.of_nat (nat_of_ascii c - 48).

(** The base-10 value of a string of digits, most significant first. *)
Definition decimal (s : string) : N :=
  fold_left (fun acc c => 10 * acc + digitValue c)%N
            (list_ascii_of_string s) 0%N.

(** [Number(v)] for [v] a capture of [\d+] or [undefined] (a group that did
    not take part in the match).  The value of a digit string is taken
    exactly, as JavaScript does up to [2^53]; above, JavaScript rounds to a
    double and answers [Infinity] for very long digit strings, which this
    definition does not follow.  A property that depends on the value read
    is stated for numbers below [2^53]. *)
Definition Number (v : option string) : number :=
  match v with
  | None => NaN
  | Some s => Num (decimal s)
  end.

(** [x || 1] on numbers: [NaN] and [0] are falsy. *)
Definition orOne (x : number) : number :=
  match x with
  | NaN => Num 1
  | Num 0 => Num 1
  | Num n => Num n
  end.

End JS.

(** ** The regular expressions of the parser *)

Module Regex.
Import JS.

(** [\d+], greedy: the longest run of digits at the start of [s] and the
    text after it. *)
Fixpoint spanDigits (s : string) : string * string :=
  match s with
  | EmptyString => (EmptyString, EmptyString)
  | String c s' =>
      if isDigit c
      then let (d, r) := spanDigits s' in (String c d, r)
      else (EmptyString, s)
  end.

Definition digits1 (s : string) : option (string * string) :=
  let (d, r) := spanDigits s in
  if truthy d then Some (d, r) else None.

(** [(?:,(\d+))?], greedy: the group takes part whenever a comma and a
    digit follow. *)
Definition optCount (s : string) : option string * string :=
  match lit "," s with
  | Some r =>
      match digits1 r with
      | Some (d, r') => (Some d, r')
      | None => (None, s)
      end
  | None => (None, s)
  end.

(** The groups 1 to 4 of a match of [locationRegExp]; the optional groups
    are [None] when they did not take part ([undefined]). *)
Record LocationMatch : Type := mkLocationMatch {
  g1 : string;
  g2 : option string;
  g3 : string;
  g4 : option string
}.

Definition countText (g : option string) : string :=
  match g with
  | Some d => "," ++ d
  | None => ""
  end.

(** The matched text (index 0 of the match). *)
Definition whole (m : LocationMatch) : string :=
  "-" ++ g1 m ++ countText (g2 m) ++ " +" ++ g3 m ++ countText (g4 m).

(** [-(\d+)(?:,(\d+))? \+(\d+)(?:,(\d+))?] tried at the start of [s]: the
    groups and the text after the match.  Each [\d+] is followed in the
    pattern by something that is not a digit, and each optional group by
    something that is not a comma, so the greedy choice is the only one
    that can succeed and no backtracking has to be modelled. *)
Definition locationAt (s : string) : option (LocationMatch * string) :=
  match lit "-" s with
  | None => None
  | Some r1 =>
      match digits1 r1 with
      | None => None
      | Some (d1, r2) =>
          let (c1, r3) := optCount r2 in
          match lit " +" r3 with
          | None => None
          | Some r4 =>
              match digits1 r4 with
              | None => None
              | Some (d3, r5) =>
                  let (c3, r6) := optCount r5 in
                  Some (mkLocationMatch d1 c1 d3 c3, r6)
              end
          end
      end
  end.

(** [s.match(locationRegExp)]: the leftmost match. *)
Fixpoint locationMatch (s : string) : option LocationMatch :=
  match locationAt s with
  | Some (m, _) => Some m
  | None =>
      match s with
      | EmptyString => None
      | String _ s' => locationMatch s'
      end
  end.

(** [/@@ (-\d+(?:,\d+)? \+\d+(?:,\d+)?) @@/] as a separator of [split]: its
    one capturing group is the location text. *)
Definition hunkHeader : matcher :=
  fun s =>
    match lit "@@ " s with
    | None => None
    | Some r1 =>
        match locationAt r1 with
        | None => None
        | Some (m, r2) =>
            match lit " @@" r2 with
            | None => None
            | Some _ => Some ([whole m], 3 + String.length (whole m) + 3)
            end
        end
    end.

End Regex.

(** ** The data model ([interfaces.ts]) *)

Module Diff.
Import JS Regex.

Record FileChange : Type := mkFileChange {
  name : string;
  start_line : number;
  line_count : number;
  content : string
}.

Record Change : Type := mkChange {
  fromFile : option FileChange;
  toFile : option FileChange
}.

(** A [Set<Change>] holds object references and compares them by identity.
    The [Change] objects live in a heap, a reference is an index into it,
    and the set lists its members in insertion order. *)
Definition ref : Type := nat.

Definition Set_has (s : list ref) (r : ref) : bool := existsb (Nat.eqb r) s.

Definition Set_add (s : list ref) (r : ref) : list ref :=
  if Set_has s r then s else s ++ [r].

(** The state a run works on: the heap of [Change] objects, the set
    [changes] and what was written with [console.error]. *)
Record Run : Type := mkRun {
  heap : list Change;
  changes : list ref;
  console : list string
}.

Definition emptyRun : Run := mkRun [] [] [].

Definition consoleError (msg : string) (st : Run) : Run :=
  mkRun (heap st) (changes st) (console st ++ [msg]).

(** [changes.add(<Change>{ ... })]: a new object is allocated and its
    reference is added to the set. *)
Definition addChange (c : Change) (st : Run) : Run :=
  mkRun (heap st ++ [c]) (Set_add (changes st) (List.length (heap st)))
        (console st).

(** The records of the collection, read through the heap. *)
Definition records (st : Run) : list Change :=
  flat_map (fun r => match nth_error (heap st) r with
                     | Some c => [c]
                     | None => []
                     end) (changes st).

Inductive exn : Type :=
| TypeError
| ExecError (error : string).

(** A run returns its state or throws; the state at the throw is kept. *)
Inductive result : Type :=
| Return (st : Run)
| Throw (e : exn) (st : Run).

Definition runOf (r : result) : Run :=
  match r with
  | Return st => st
  | Throw _ st => st
  end.

Definition nl : string := String (ascii_of_nat 10) "".

(** ** The hunk walk (lines 134 to 168 of [index.ts]) *)

(** The two fragments of the hunk being rebuilt and the run, whose console
    the walk writes to. *)
Definition Walk : Type := (option FileChange * option FileChange * Run)%type.

(** [f.content += `${text}\n`] *)
Definition appendLine (f : FileChange) (text : string) : FileChange :=
  mkFileChange (name f) (start_line f) (line_count f)
               (content f ++ text ++ nl).

(** One turn of the [while (changedLines.length > 0)] loop on the line that
    [changedLines.shift()] hands out; [continue] leaves the fragments as
    they are. *)
Definition changedLine (line : string) (w : Walk) : Walk :=
  let '(fromFile, toFile, st) := w in
  if startsWith line "-" then
    match fromFile with
    | None => (fromFile, toFile, consoleError "Error: fromFile is undefined" st)
    | Some f => (Some (appendLine f (removeMarker "-" line)), toFile, st)
    end
  else if startsWith line "+" then
    match toFile with
    | None => (fromFile, toFile, consoleError "Error: toFile is undefined" st)
    | Some t => (fromFile, Some (appendLine t (removeMarker "+" line)), st)
    end
  else
    match fromFile with
    | None => (fromFile, toFile, consoleError "Error: fromFile is undefined" st)
    | Some f =>
        match toFile with
        | None =>
            (fromFile, toFile, consoleError "Error: toFile is undefined" st)
        | Some t =>
            (Some (appendLine f (removeSpaces line)),
             Some (appendLine t (removeSpaces line)), st)
        end
    end.

(** The whole [while] loop: the lines are taken from the front until none
    is left. *)
Fixpoint whileChangedLines (changedLines : list string) (w : Walk) : Walk :=
  match changedLines with
  | [] => w
  | line :: rest => whileChangedLines rest (changedLine line w)
  end.

(** ** One hunk (lines 105 to 173) *)

(** The fragments as they are allocated from the location match. *)
Definition newFromFile (isAddedFile : bool) (fromFileName : string)
    (m : LocationMatch) : option FileChange :=
  if isAddedFile then None
  else Some (mkFileChange fromFileName (Number (Some (g1 m)))
                          (orOne (Number (g2 m))) "").

Definition newToFile (isDeletedFile : bool) (toFileName : string)
    (m : LocationMatch) : option FileChange :=
  if isDeletedFile then None
  else Some (mkFileChange toFileName (Number (Some (g3 m)))
                          (orOne (Number (g4 m))) "").

(** From the allocation of the fragments to [changes.add], for the hunk
    body [body = diffChunks[i + 1]]. *)
Definition hunk (fromFileName toFileName : string)
    (isAddedFile isDeletedFile : bool) (m : LocationMatch) (body : string)
    (st : Run) : Run :=
  let '(fromFile, toFile, st') :=
    whileChangedLines (split nl body)
      (newFromFile isAddedFile fromFileName m,
       newToFile isDeletedFile toFileName m, st) in
  addChange (mkChange fromFile toFile) st'.

(** The loop [for (let i = 0; i < diffChunks.length; i += 2)].  [chunk0] is
    [diffChunks[0]], which the location is matched against in every turn,
    and [rest] is the part of [diffChunks] from index [i] on.  When
    [diffChunks[i + 1]] is [undefined], calling [split] on it throws a
    [TypeError]. *)
Fixpoint forChunks (fromFileName toFileName : string)
    (isAddedFile isDeletedFile : bool) (chunk0 : string)
    (rest : list string) (st : Run) : result :=
  match rest with
  | [] => Return st
  | _ :: [] =>
      match locationMatch chunk0 with
      | None => Return (consoleError "Error parsing location information" st)
      | Some _ => Throw TypeError st
      end
  | _ :: body :: rest' =>
      match locationMatch chunk0 with
      | None =>
          forChunks fromFileName toFileName isAddedFile isDeletedFile chunk0
            rest' (consoleError "Error parsing location information" st)
      | Some m =>
          forChunks fromFileName toFileName isAddedFile isDeletedFile chunk0
            rest'
            (hunk fromFileName toFileName isAddedFile isDeletedFile m body st)
      end
  end.

(** ** One file section (lines 62 to 174) *)

(** [while (!lines[0].startsWith("---")) lines.shift()]: when the lines run
    out, [lines[0]] is [undefined] and the call throws a [TypeError]
    ([None]). *)
Fixpoint skipHeaderLines (lines : list string) : option (list string) :=
  match lines with
  | [] => None
  | l :: rest => if startsWith l "---" then Some lines else skipHeaderLines rest
  end.

(** [lines.shift()] *)
Definition shift (lines : list string) : option string * list string :=
  match lines with
  | [] => (None, [])
  | l :: rest => (Some l, rest)
  end.

(** What a file section is read as, before its hunks are walked. *)
Inductive FileSection : Type :=
| NoOldHeader
| NoNames
| Names (fromFileName toFileName : string) (diffChunks : list string).

Definition readSection (fileDiff : string) : FileSection :=
  let lines := filter truthy (split nl fileDiff) in
  match skipHeaderLines lines with
  | None => NoOldHeader
  | Some lines =>
      let (fromLine, lines) := shift lines in
      let (toLine, lines) := shift lines in
      match option_map (removeFirst "--- a/") fromLine,
            option_map (removeFirst "+++ b/") toLine with
      | Some fromFileName, Some toFileName =>
          Names fromFileName toFileName
                (filter truthy (splitWith hunkHeader (join nl lines)))
      | _, _ => NoNames
      end
  end.

Definition isAdded (fromFileName : string) : bool :=
  String.eqb fromFileName "/dev/null".

(** The [else if] of line 86: a file is classified as deleted only when it
    was not classified as added. *)
Definition isDeleted (fromFileName toFileName : string) : bool :=
  negb (isAdded fromFileName) && String.eqb toFileName "/dev/null".

Definition forFile (fileDiff : string) (st : Run) : result :=
  match readSection fileDiff with
  | NoOldHeader => Throw TypeError st
  | NoNames => Return (consoleError "Error parsing file names" st)
  | Names fromFileName toFileName diffChunks =>
      forChunks fromFileName toFileName (isAdded fromFileName)
                (isDeleted fromFileName toFileName)
                (hd "" diffChunks) diffChunks st
  end.

(** ** The whole run *)

(** [for (const fileDiff of changedFiles)]; an exception ends the loop. *)
Fixpoint forFiles (changedFiles : list string) (st : Run) : result :=
  match changedFiles with
  | [] => Return st
  | fileDiff :: rest =>
      match forFile fileDiff st with
      | Return st' => forFiles rest st'
      | Throw e st' => Throw e st'
      end
  end.

Definition changedFilesOf (diffOut : string) : list string :=
  filter truthy (split "diff --git" diffOut).

(** Lines 52 to 176: what [getChanges] does with the output of [git diff]. *)
Definition parseDiff (diffOut : string) : result :=
  if truthy diffOut
  then forFiles (changedFilesOf diffOut) emptyRun
  else Return emptyRun.

(** The outcome of [execFileSync]: the standard output, or an exception. *)
Inductive exec : Type :=
| Stdout (out : string)
| Failed (error : string).

(** [os.platform().startsWith("win") ? "git.exe" : "git"] *)
Definition git (platform : string) : string :=
  if startsWith platform "win" then "git.exe" else "git".

(** The template literal [`${n}`] for a non-negative integer below [10^21]:
    its digits in base 10.  From [10^21] on JavaScript prints exponent
    notation, which this definition does not follow. *)
Definition showNumber (n : N) : string := NilZero.string_of_uint (N.to_uint n).

Definition diffArgs (files : list string) (contextLines : N) : list string :=
  let args := ["diff"; "--minimal"; "--no-color";
               ("--unified=" ++ showNumber contextLines)%string; "HEAD"] in
  match files with
  | [] => args
  | _ :: _ => args ++ "--" :: files
  end.

(** [getChanges].  The platform and [execFileSync] are what the function
    reads from its environment; [files] lists the members of the set in
    insertion order. *)
Definition getChanges (platform : string)
    (execFileSync : string -> list string -> exec)
    (files : list string) (contextLines : N) : result :=
  match execFileSync (git platform) ["add"; "--all"] with
  | Failed error =>
      Throw (ExecError error)
            (consoleError ("Error staging changes: " ++ error)%string emptyRun)
  | Stdout _ =>
      match execFileSync (git platform) (diffArgs files contextLines) with
      | Failed error =>
          Throw (ExecError error)
                (consoleError ("Error running git diff: " ++ error)%string
                          emptyRun)
      | Stdout diffOut => parseDiff diffOut
      end
  end.

End Diff.

(** ** Vocabulary of the properties *)

Module Spec.
Import JS Regex Diff.

(** Two optional fragments are both absent, or both present with the same
    name, start line and line count: the walk changes the content only. *)
Definition sameFrame (a b : option FileChange) : Prop :=
  match a, b with
  | None, None => True
  | Some x, Some y =>
      name x = name y /\ start_line x = start_line y
      /\ line_count x = line_count y
  | _, _ => False
  end.

(** A record as a hunk with location match [m] leaves it. *)
Definition hunkRecord (fromFileName toFileName : string)
    (isAddedFile isDeletedFile : bool) (m : LocationMatch) (c : Change)
  : Prop :=
  sameFrame (newFromFile isAddedFile fromFileName m) (fromFile c)
  /\ sameFrame (newToFile isDeletedFile toFileName m) (toFile c).

(** A record of the file section [fileDiff]: the section has both names,
    its first chunk matches the location pattern, and the record is framed
    by that match. *)
Definition sectionRecord (fileDiff : string) (c : Change) : Prop :=
  exists fromFileName toFileName diffChunks m,
    readSection fileDiff = Names fromFileName toFileName diffChunks
    /\ locationMatch (hd "" diffChunks) = Some m
    /\ hunkRecord fromFileName toFileName (isAdded fromFileName)
                  (isDeleted fromFileName toFileName) m c.

(** The set holds exactly the references of the heap, in allocation
    order. *)
Definition wellFormed (st : Run) : Prop :=
  changes st = seq 0 (List.length (heap st)).

(** The objects a step from [st] to [st'] allocated. *)
Definition emittedBy (st st' : Run) : list Change :=
  skipn (List.length (heap st)) (heap st').

Definition present (o : option FileChange) : bool :=
  match o with
  | Some _ => true
  | None => false
  end.

(** [1 <= x] on JavaScript numbers; [NaN] is not. *)
Definition atLeastOne (x : number) : Prop :=
  match x with
  | Num n => (1 <= n)%N
  | NaN => False
  end.

Definition countOK (o : option FileChange) : Prop :=
  match o with
  | Some f => atLeastOne (line_count f)
  | None => True
  end.

(** The number of (location, body) pairs the loop over [diffChunks] turns
    into records: all of them when the first chunk matches the location
    pattern, none otherwise. *)
Definition pairsKept (diffChunks : list string) : nat :=
  match locationMatch (hd "" diffChunks) with
  | Some _ => List.length diffChunks / 2
  | None => 0
  end.

Definition hunksOf (fileDiff : string) : nat :=
  match readSection fileDiff with
  | Names _ _ diffChunks => pairsKept diffChunks
  | _ => 0
  end.

Definition locates (chunk : string) : bool :=
  match locationMatch chunk with
  | Some _ => true
  | None => false
  end.

(** The file section has its old-file header, and its chunks pair up
    (unless none of them is walked). *)
Definition sectionOK (fileDiff : string) : bool :=
  match readSection fileDiff with
  | NoOldHeader => false
  | NoNames => true
  | Names _ _ diffChunks =>
      Nat.even (List.length diffChunks) || negb (locates (hd "" diffChunks))
  end.

(** The start line and line count of both sides of every record. *)
Definition locations (st : Run)
  : list (option (number * number) * option (number * number)) :=
  map (fun c =>
         (option_map (fun f => (start_line f, line_count f)) (fromFile c),
          option_map (fun f => (start_line f, line_count f)) (toFile c)))
      (records st).



(** A string of digits. *)
Fixpoint allDigits (s : string) : bool :=
  match s with
  | EmptyString => true
  | String c s' => isDigit c && allDigits s'
  end.

Definition noDigitAhead (s : string) : Prop :=
  match s with
  | EmptyString => True
  | String c _ => isDigit c = false
  end.

(** A capture of [\d+]: digits, at least one. *)
Definition digitText (d : string) : Prop :=
  allDigits d = true /\ truthy d = true.

Definition optDigitText (g : option string) : Prop :=
  match g with
  | Some d => digitText d
  | None => True
  end.

Definition digitGroups (m : LocationMatch) : Prop :=
  digitText (g1 m) /\ optDigitText (g2 m)
  /\ digitText (g3 m) /\ optDigitText (g4 m).

(** The result of a split by a separator with one capture: pieces of the
    subject with a capture between each two of them. *)
Inductive Alternates (P : string -> Prop) : list string -> Prop :=
| alternates_last (piece : string) : Alternates P [piece]
| alternates_more (piece capture : string) (l : list string) :
    P capture -> Alternates P l -> Alternates P (piece :: capture :: l).

End Spec.

(** ** Sample diffs *)

Module Samples.
Import JS Regex Diff.

(** Text made of the given lines, each ended by a newline, as [git diff]
    prints it. *)
Definition unlines (ls : list string) : string :=
  fold_right (fun l acc => (l ++ nl ++ acc)%string) "" ls.

(** One file with two hunks; the second one is located at -10,3 +10,4. *)
Definition twoHunks : string :=
  unlines ["diff --git a/f b/f"; "index 1..2 100644"; "--- a/f"; "+++ b/f";
           "@@ -1 +1 @@"; "-a"; "+b";
           "@@ -10,3 +10,4 @@"; " c"; "+x"].

(** A file section (the text after [diff --git]) whose old name is read as
    the null device. *)
Definition addedFile : string :=
  unlines [" a/f b/f"; "--- a//dev/null"; "+++ b/f"; "@@ -0,0 +1 @@"; "+x"].

(** A first file section without an old-file header (a rename without
    changes), followed by a section that is in order. *)
Definition noOldHeader : string :=
  unlines ["diff --git a/old.txt b/new.txt"; "similarity index 100%";
           "rename from old.txt"; "rename to new.txt";
           "diff --git a/g b/g"; "--- a/g"; "+++ b/g";
           "@@ -1 +1 @@"; "-a"; "+b"].

(** A first file section whose old-file header is its last line, followed
    by a section that is in order. *)
Definition noNewHeader : string :=
  unlines ["diff --git a/f b/f"; "--- a/f";
           "diff --git a/g b/g"; "--- a/g"; "+++ b/g";
           "@@ -1 +1 @@"; "-a"; "+b"].

(** A hunk whose location header is followed by nothing. *)
Definition emptyBody : string :=
  unlines ["diff --git a/f b/f"; "--- a/f"; "+++ b/f"; "@@ -1 +1 @@"].

(** The same file section twice. *)
Definition twice : string :=
  unlines ["diff --git a/f b/f"; "--- a/f"; "+++ b/f"; "@@ -1 +1 @@"; "-a";
           "diff --git a/f b/f"; "--- a/f"; "+++ b/f"; "@@ -1 +1 @@"; "-a"].

(** One hunk whose body is [" ctx"], ["-old"], ["+new"]: the context line
    follows the location header on its line. *)
Definition ctxOldNew : string :=
  "diff --git a/f b/f" ++ nl ++ "--- a/f" ++ nl ++ "+++ b/f" ++ nl
  ++ "@@ -10,3 +10,4 @@ ctx" ++ nl ++ "-old" ++ nl ++ "+new".

(** The same hunk with the location header alone on its line. *)
Definition ctxOldNewBare : string :=
  unlines ["diff --git a/f b/f"; "--- a/f"; "+++ b/f";
           "@@ -10,3 +10,4 @@"; " ctx"; "-old"; "+new"].

(** A hunk with an explicit count of zero on the old side and no count on
    the new side. *)
Definition zeroCount : string :=
  unlines ["diff --git a/f b/f"; "--- a/f"; "+++ b/f";
           "@@ -10,0 +11 @@"; "+x"].

(** An [execFileSync] that stages without output and prints [out] for
    every other command. *)
Definition printing (out : string) : string -> list string -> exec :=
  fun _ args =>
    match args with
    | "add" :: _ => Stdout ""
    | _ => Stdout out
    end.

(** An added and a deleted file as [git diff] prints them, with the null
    device named without prefix. *)
Definition gitAdded : string :=
  unlines ["diff --git a/f b/f"; "new file mode 100644";
           "index 0000000..587be6b"; "--- /dev/null"; "+++ b/f";
           "@@ -0,0 +1 @@"; "+x"].

Definition gitDeleted : string :=
  unlines ["diff --git a/f b/f"; "deleted file mode 100644";
           "index 587be6b..0000000"; "--- a/f"; "+++ /dev/null";
           "@@ -1 +0,0 @@"; "-x"].

End Samples.

(** ** The output of the parser, stated declaratively *)

Module Model.
Import JS Regex Diff Spec.

(** [st] with the messages [errs] written to the console. *)
Definition logged (st : Run) (errs : list string) : Run :=
  mkRun (heap st) (changes st) (console st ++ errs).

(** A body line without its marker, as the walk appends it. *)
Definition unmark (line : string) : string :=
  if startsWith line "-" then removeMarker "-" line
  else if startsWith line "+" then removeMarker "+" line
  else removeSpaces line.

(** The text the lines [lines] add to a fragment: each one without its
    marker and ended by a newline. *)
Definition contentOf (lines : list string) : string :=
  String.concat "" (map (fun l => (unmark l ++ nl)%string) lines).

Definition isMinus (line : string) : bool := startsWith line "-".
Definition isPlus (line : string) : bool := startsWith line "+".

(** [f] with [text] added to its content. *)
Definition withMore (f : FileChange) (text : string) : FileChange :=
  mkFileChange (name f) (start_line f) (line_count f)
               (content f ++ text).

(** The outcome of the walk of a hunk, started on a silent console: the
    record of the hunk and the messages of the walk. *)
Definition hunkWalk (fromFileName toFileName : string)
    (isAddedFile isDeletedFile : bool) (m : LocationMatch) (body : string)
  : Walk :=
  whileChangedLines (split nl body)
    (newFromFile isAddedFile fromFileName m,
     newToFile isDeletedFile toFileName m, emptyRun).

Definition hunkChange (fromFileName toFileName : string)
    (isAddedFile isDeletedFile : bool) (m : LocationMatch) (body : string)
  : Change :=
  let '(fromFile, toFile, _) :=
    hunkWalk fromFileName toFileName isAddedFile isDeletedFile m body in
  mkChange fromFile toFile.

Definition hunkErrors (fromFileName toFileName : string)
    (isAddedFile isDeletedFile : bool) (m : LocationMatch) (body : string)
  : list string :=
  let '(_, _, st) :=
    hunkWalk fromFileName toFileName isAddedFile isDeletedFile m body in
  console st.

(** The bodies of the (location, body) pairs of a chunk list: the chunks at
    the odd indices. *)
Fixpoint bodies (diffChunks : list string) : list string :=
  match diffChunks with
  | _ :: body :: rest => body :: bodies rest
  | _ => []
  end.

(** The records of a file section, in the order of its hunks. *)
Definition sectionChanges (fileDiff : string) : list Change :=
  match readSection fileDiff with
  | Names fromFileName toFileName diffChunks =>
      match locationMatch (hd "" diffChunks) with
      | Some m =>
          map (hunkChange fromFileName toFileName (isAdded fromFileName)
                          (isDeleted fromFileName toFileName) m)
              (bodies diffChunks)
      | None => []
      end
  | _ => []
  end.

(** The loop over the chunks, as a whole: the records it allocates and the
    messages it writes. *)
Definition chunkChanges (fromFileName toFileName : string) (isA isD : bool)
    (chunk0 : string) (rest : list string) : list Change :=
  match locationMatch chunk0 with
  | Some m => map (hunkChange fromFileName toFileName isA isD m) (bodies rest)
  | None => []
  end.

Definition chunkErrors (fromFileName toFileName : string) (isA isD : bool)
    (chunk0 : string) (rest : list string) : list string :=
  match locationMatch chunk0 with
  | Some m =>
      flat_map (hunkErrors fromFileName toFileName isA isD m) (bodies rest)
  | None =>
      repeat "Error parsing location information"
             ((List.length rest + 1) / 2)
  end.

(** The messages of a file section. *)
Definition sectionErrors (fileDiff : string) : list string :=
  match readSection fileDiff with
  | NoOldHeader => []
  | NoNames => ["Error parsing file names"]
  | Names fromFileName toFileName diffChunks =>
      chunkErrors fromFileName toFileName (isAdded fromFileName)
                  (isDeleted fromFileName toFileName)
                  (hd "" diffChunks) diffChunks
  end.

(** The file sections a run gets to: all of them up to the first one that
    makes it throw, that one included. *)
Fixpoint processed (changedFiles : list string) : list string :=
  match changedFiles with
  | [] => []
  | fileDiff :: rest =>
      if sectionOK fileDiff then fileDiff :: processed rest else [fileDiff]
  end.

(** A text made of lines that are each ended by a newline. *)
Definition terminated (s : string) : Prop :=
  s = "" \/ exists p, s = (p ++ nl)%string.

Definition contentTerminated (o : option FileChange) : Prop :=
  match o with
  | Some f => terminated (content f)
  | None => True
  end.

(** No character of [s] is a newline. *)
Fixpoint oneLine (s : string) : bool :=
  match s with
  | EmptyString => true
  | String c s' => negb (Ascii.eqb c (ascii_of_nat 10)) && oneLine s'
  end.

(** A line that [split] and [filter] hand on as it is: not empty and
    without a newline. *)
Definition keptLine (s : string) : bool := truthy s && oneLine s.

(** No text that matches the hunk header pattern starts in [s]. *)
Fixpoint headerFree (s : string) : bool :=
  match hunkHeader s with
  | Some _ => false
  | None =>
      match s with
      | EmptyString => true
      | String _ s' => headerFree s'
      end
  end.

(** [s] without its first [n] characters. *)
Fixpoint dropChars (n : nat) (s : string) : string :=
  match n, s with
  | S k, String _ s' => dropChars k s'
  | _, _ => s
  end.

(** The lines [ls], each one after a newline. *)
Definition onNewLines (ls : list string) : string :=
  String.concat "" (map (fun l => (nl ++ l)%string) ls).

(** The text of a hunk header line up to the end of the pattern. *)
Definition headerText (m : LocationMatch) : string :=
  "@@ " ++ whole m ++ " @@".

(** A file section with one hunk: header lines, the two name lines, the
    location line with [tail] after the pattern, and the body lines. *)
Definition oneHunkSection (headers : list string) (oldName newName : string)
    (m : LocationMatch) (tail : string) (body : list string) : string :=
  Samples.unlines
    (headers ++ [("--- a/" ++ oldName)%string; ("+++ b/" ++ newName)%string;
                 (headerText m ++ tail)%string] ++ body).

(** The four messages of the parser. *)
Definition parserMessages : list string :=
  ["Error parsing file names"; "Error parsing location information";
   "Error: fromFile is undefined"; "Error: toFile is undefined"].

(** The two messages of the walk. *)
Definition walkMessage (msg : string) : Prop :=
  msg = "Error: fromFile is undefined" \/ msg = "Error: toFile is undefined".

(** A renamed file with one changed line. *)
Definition renamedFile : string :=
  Samples.unlines
    [" a/old.txt b/new.txt"; "similarity index 90%"; "rename from old.txt";
     "rename to new.txt"; "--- a/old.txt"; "+++ b/new.txt";
     "@@ -3 +3 @@"; "-a"; "+b"].

(** A line is not an old-file header. *)
Definition noOldMark (line : string) : bool := negb (startsWith line "---").

Definition notPlus (line : string) : bool := negb (isPlus line).
Definition notMinus (line : string) : bool := negb (isMinus line).

(** An [execFileSync] that fails to stage. *)
Definition failingToStage (error : string) : string -> list string -> exec :=
  fun _ args =>
    match args with
    | "add" :: _ => Failed error
    | _ => Stdout ""
    end.

(** What is asked of the parts of [oneHunkSection]: the lines are not empty
    and hold no newline, no header line starts with [---], the groups of
    the location are digits, and the body text is not empty and holds no
    text that matches the hunk header pattern. *)
Definition oneHunkInput (headers : list string) (oldName newName : string)
    (m : LocationMatch) (tail : string) (body : list string) : Prop :=
  forallb keptLine headers = true
  /\ forallb noOldMark headers = true
  /\ oneLine oldName = true
  /\ oneLine newName = true
  /\ digitGroups m
  /\ oneLine tail = true
  /\ forallb keptLine body = true
  /\ headerFree (tail ++ onNewLines body) = true
  /\ truthy (tail ++ onNewLines body) = true.

(** A location whose numbers are printed in base 10; a count may be left
    out. *)
Definition located (oldStart : N) (oldCount : option N) (newStart : N)
    (newCount : option N) : LocationMatch :=
  mkLocationMatch (showNumber oldStart) (option_map showNumber oldCount)
                  (showNumber newStart) (option_map showNumber newCount).

(** The line count read from a count: 1 when it is left out or zero. *)
Definition countRead (count : option N) : number :=
  match count with
  | None => Num 1
  | Some 0%N => Num 1
  | Some n => Num n
  end.

(** The location -10,3 +10,4. *)
Definition sampleLocation : LocationMatch :=
  mkLocationMatch "10" (Some "3") "10" (Some "4").

(** One step of [decimal]: the digit [c] after the digits read so far. *)
Definition decimalStep (acc : N) (c : ascii) : N :=
  (10 * acc + digitValue c)%N.

(** The lines [ls] with the marker [mark] in front of each. *)
Definition marked (mark : string) (ls : list string) : list string :=
  map (fun l => (mark ++ l)%string) ls.

Definition noLeadingSpace (l : string) : bool := negb (startsWith l " ").

(** The numbers that [Number] reads exactly and that a template literal
    prints digit by digit: those below [2^53]. *)
Definition exactNumber (n : N) : bool := (n <? 2 ^ 53)%N.

Definition exactCount (count : option N) : bool :=
  match count with
  | Some n => exactNumber n
  | None => true
  end.

(** *** A diff given by its parts *)

(** A hunk: its location, what follows the pattern on the location line,
    and its body lines. *)
Record HunkText : Type := mkHunkText {
  hLocation : LocationMatch;
  hRest : string;
  hBody : list string
}.

(** A file section: the lines before the name lines (the first one is the
    rest of the line of [diff --git]), the two names and the hunks. *)
Record SectionText : Type := mkSectionText {
  sHeaders : list string;
  sOld : string;
  sNew : string;
  sHunks : list HunkText
}.

Definition hunkLines (h : HunkText) : list string :=
  (headerText (hLocation h) ++ hRest h)%string :: hBody h.

Definition sectionLines (s : SectionText) : list string :=
  sHeaders s
  ++ [("--- a/" ++ sOld s)%string; ("+++ b/" ++ sNew s)%string]
  ++ flat_map hunkLines (sHunks s).

(** The text of a file section, line by line, and the text of a diff: each
    section after [diff --git]. *)
Definition sectionText (s : SectionText) : string :=
  Samples.unlines (sectionLines s).

Definition diffText (sections : list SectionText) : string :=
  String.concat ""
    (map (fun s => ("diff --git" ++ sectionText s)%string) sections).







(** Two file sections, with two hunks and with one. *)
Definition twoSections : list SectionText :=
  [mkSectionText [" a/f b/f"; "index 1..2 100644"] "f" "f"
     [mkHunkText (mkLocationMatch "1" None "1" None) "" ["-a"; "+b"];
      mkHunkText sampleLocation " int main()" [" c"; "-d"; " e"; "+x"]];
   mkSectionText [" a/old.txt b/new.txt"; "similarity index 90%";
                  "rename from old.txt"; "rename to new.txt"]
     "old.txt" "new.txt"
     [mkHunkText (mkLocationMatch "3" None "3" None) "" ["-a"; "+b"]]].

(** One file in which the same line is replaced at three places. *)
Definition sameChangeThrice : list SectionText :=
  [mkSectionText [" a/f b/f"; "index 1..2 100644"] "f" "f"
     [mkHunkText (mkLocationMatch "1" None "1" None) "" ["-a"; "+b"];
      mkHunkText (mkLocationMatch "10" None "10" None) "" ["-a"; "+b"];
      mkHunkText (mkLocationMatch "20" None "20" None) "" ["-a"; "+b"]]].

End Model.

(** ** What the regular expressions capture *)

Module RegexFacts.
Import JS Regex Diff Spec.

Lemma spanDigits_spec (s d r : string) :
  spanDigits s = (d, r) ->
  s = (d ++ r)%string /\ allDigits d = true /\ noDigitAhead r.
Proof.
  revert d r. induction s as [|c s IH]; intros d r; simpl.
  - intros [= <- <-]. simpl. auto.
  - destruct (isDigit c) eqn:Hc.
    + destruct (spanDigits s) as [d' r'].
      intros [= <- <-]. destruct (IH d' r' eq_refl) as (-> & Hd & Hr).
      simpl. rewrite Hc, Hd. auto.
    + intros [= <- <-]. simpl. auto.
Qed.

Lemma spanDigits_app (d r : string) :
  allDigits d = true -> noDigitAhead r -> spanDigits (d ++ r) = (d, r).
Proof.
  intros Hd Hr. induction d as [|c d IH]; simpl in *.
  - destruct r as [|c r]; simpl in *; [reflexivity|]. now rewrite Hr.
  - apply andb_true_iff in Hd. destruct Hd as [Hc Hd].
    rewrite Hc, (IH Hd). reflexivity.
Qed.

Lemma append_assoc (a b c : string) :
  ((a ++ b) ++ c = a ++ (b ++ c))%string.
Proof. induction a as [|x a IH]; simpl; [reflexivity|]. now rewrite IH. Qed.

Lemma append_nil_r (a : string) : (a ++ "")%string = a.
Proof. induction a as [|x a IH]; simpl; [reflexivity|]. now rewrite IH. Qed.

Lemma lit_spec (p s r : string) : lit p s = Some r -> s = (p ++ r)%string.
Proof.
  revert s. induction p as [|a p IH]; intros s; simpl.
  - now intros [= ->].
  - destruct s as [|b s]; [discriminate|].
    destruct (Ascii.eqb a b) eqn:E; [|discriminate].
    apply Ascii.eqb_eq in E. subst b. intro H. now rewrite (IH _ H).
Qed.

Lemma lit_app (p r : string) : lit p (p ++ r) = Some r.
Proof.
  induction p as [|a p IH]; simpl; [reflexivity|].
  now rewrite Ascii.eqb_refl.
Qed.

Lemma digits1_spec (s d r : string) :
  digits1 s = Some (d, r) ->
  s = (d ++ r)%string /\ digitText d /\ noDigitAhead r.
Proof.
  unfold digits1, digitText.
  destruct (spanDigits s) as [d' r'] eqn:E.
  destruct (truthy d') eqn:Ht; [|discriminate].
  intros [= <- <-]. destruct (spanDigits_spec _ _ _ E) as (-> & Hd & Hr). auto.
Qed.

Lemma digits1_app (d r : string) :
  digitText d -> noDigitAhead r -> digits1 (d ++ r) = Some (d, r).
Proof.
  intros [Hd Ht] Hr. unfold digits1.
  now rewrite (spanDigits_app _ _ Hd Hr), Ht.
Qed.

Lemma optCount_spec (s : string) (g : option string) (r : string) :
  optCount s = (g, r) -> s = (countText g ++ r)%string /\ optDigitText g.
Proof.
  unfold optCount.
  destruct (lit "," s) as [r1|] eqn:E1.
  - destruct (digits1 r1) as [[d r2]|] eqn:E2.
    + intros [= <- <-]. apply lit_spec in E1.
      destruct (digits1_spec _ _ _ E2) as (-> & Hd & _).
      subst s. simpl. auto.
    + intros [= <- <-]. simpl. auto.
  - intros [= <- <-]. simpl. auto.
Qed.

Lemma optCount_app (g : option string) (x : string) :
  optDigitText g -> noDigitAhead x -> lit "," x = None ->
  optCount (countText g ++ x) = (g, x).
Proof.
  intros Hg Hx Hc. unfold optCount. destruct g as [d|].
  - replace (countText (Some d) ++ x)%string with ("," ++ (d ++ x))%string
      by reflexivity.
    rewrite lit_app. cbn [optDigitText] in Hg.
    now rewrite (digits1_app _ _ Hg Hx).
  - cbn [countText append]. now rewrite Hc.
Qed.

Lemma locationAt_spec (s : string) (m : LocationMatch) (r : string) :
  locationAt s = Some (m, r) -> s = (whole m ++ r)%string /\ digitGroups m.
Proof.
  unfold locationAt, whole, digitGroups.
  destruct (lit "-" s) as [r1|] eqn:E1; [|discriminate].
  destruct (digits1 r1) as [[d1 r2]|] eqn:E2; [|discriminate].
  destruct (optCount r2) as [c1 r3] eqn:E3.
  destruct (lit " +" r3) as [r4|] eqn:E4; [|discriminate].
  destruct (digits1 r4) as [[d3 r5]|] eqn:E5; [|discriminate].
  destruct (optCount r5) as [c3 r6] eqn:E6.
  intros [= <- <-]. cbn [g1 g2 g3 g4].
  apply lit_spec in E1, E4.
  destruct (digits1_spec _ _ _ E2) as (H2 & Hd1 & _).
  destruct (digits1_spec _ _ _ E5) as (H5 & Hd3 & _).
  destruct (optCount_spec _ _ _ E3) as (H3 & Hc1).
  destruct (optCount_spec _ _ _ E6) as (H6 & Hc3).
  subst. split; [|auto].
  rewrite !append_assoc. reflexivity.
Qed.

Lemma countText_ahead (g : option string) (x : string) :
  noDigitAhead x -> noDigitAhead (countText g ++ x).
Proof. destruct g; simpl; auto. Qed.

(** The matched text, taken alone, matches with the same groups. *)
Lemma locationAt_whole (m : LocationMatch) :
  digitGroups m -> locationAt (whole m) = Some (m, "").
Proof.
  destruct m as [d1 c1 d3 c3]. intros (H1 & H2 & H3 & H4). simpl in *.
  unfold locationAt, whole. cbn [g1 g2 g3 g4].
  rewrite lit_app.
  rewrite (digits1_app d1 _ H1) by (apply countText_ahead; exact eq_refl).
  rewrite (optCount_app c1 _ H2) by reflexivity.
  rewrite lit_app.
  rewrite (digits1_app d3 _ H3)
    by (rewrite <- (append_nil_r (countText c3));
        apply countText_ahead; exact I).
  rewrite <- (append_nil_r (countText c3)).
  rewrite (optCount_app c3 "" H4) by reflexivity.
  reflexivity.
Qed.

Lemma locationMatch_at (s : string) (m : LocationMatch) (r : string) :
  locationAt s = Some (m, r) -> locationMatch s = Some m.
Proof.
  intro H. destruct s as [|a s]; [discriminate H|].
  cbn [locationMatch]. now rewrite H.
Qed.

(** What the split captures always matches the location pattern. *)
Lemma hunkHeader_capture (s : string) (caps : list string) (n : nat) :
  hunkHeader s = Some (caps, n) ->
  exists c k, caps = [c] /\ n = S k /\ locates c = true /\ truthy c = true.
Proof.
  unfold hunkHeader.
  destruct (lit "@@ " s) as [r1|]; [|discriminate].
  destruct (locationAt r1) as [[m r2]|] eqn:E; [|discriminate].
  destruct (lit " @@" r2); [|discriminate].
  intros [= <- <-]. exists (whole m), (2 + String.length (whole m) + 3).
  destruct (locationAt_spec _ _ _ E) as (_ & Hm).
  unfold locates.
  rewrite (locationMatch_at _ _ _ (locationAt_whole m Hm)). auto.
Qed.

Lemma splitScan_alternates (m : matcher) (P : string -> Prop) :
  (forall s caps n, m s = Some (caps, n) -> exists c, caps = [c] /\ P c) ->
  forall s skip cur, Alternates P (splitScan m s skip cur).
Proof.
  intros Hm. induction s as [|c s IH]; intros skip cur; simpl.
  - constructor.
  - destruct skip as [|k]; [|apply IH].
    destruct (m (String c s)) as [[caps n]|] eqn:E; [|apply IH].
    destruct (Hm _ _ _ E) as (cap & -> & Hcap).
    destruct n as [|k].
    + destruct (truthy cur); [|apply IH].
      simpl. constructor; [assumption|apply IH].
    + simpl. constructor; [assumption|apply IH].
Qed.

(** The chunks of a section text that starts with a location header start
    with the location text, which matches the location pattern. *)
Lemma first_chunk_locates (text : string) (caps : list string) (n : nat) :
  hunkHeader text = Some (caps, n) ->
  locates (hd "" (filter truthy (splitWith hunkHeader text))) = true.
Proof.
  intro H.
  destruct (hunkHeader_capture _ _ _ H) as (c & k & -> & -> & Hloc & Htr).
  unfold splitWith. destruct text as [|a text]; [discriminate|].
  cbn [splitScan]. rewrite H. cbn [truthy app filter]. rewrite Htr.
  exact Hloc.
Qed.

Lemma splitWith_hunkHeader_alternates (text : string) :
  Alternates (fun c => locates c = true /\ truthy c = true)
             (splitWith hunkHeader text).
Proof.
  apply splitScan_alternates. intros s caps n H.
  destruct (hunkHeader_capture _ _ _ H) as (c & k & -> & _ & Hc).
  eauto.
Qed.

End RegexFacts.

(** ** The set of references *)

Module SetFacts.
Import JS Regex Diff Spec.

Lemma Set_has_seq (n : nat) : Set_has (seq 0 n) n = false.
Proof.
  unfold Set_has.
  destruct (existsb (Nat.eqb n) (seq 0 n)) eqn:E; [|reflexivity].
  apply existsb_exists in E. destruct E as [x [Hin Heq]].
  apply Nat.eqb_eq in Heq. subst x.
  apply in_seq in Hin. lia.
Qed.

Lemma addChange_wellFormed (c : Change) (st : Run) :
  wellFormed st -> wellFormed (addChange c st).
Proof.
  unfold wellFormed, addChange, Set_add. simpl. intros ->.
  rewrite Set_has_seq, length_app. simpl.
  rewrite Nat.add_1_r, seq_S. reflexivity.
Qed.

Lemma consoleError_wellFormed (msg : string) (st : Run) :
  wellFormed st -> wellFormed (consoleError msg st).
Proof. unfold wellFormed. simpl. auto. Qed.

Lemma records_wellFormed (st : Run) : wellFormed st -> records st = heap st.
Proof.
  unfold wellFormed, records. intros ->.
  induction (heap st) as [|c h IH] using rev_ind; [reflexivity|].
  rewrite length_app. simpl. rewrite Nat.add_1_r, seq_S, flat_map_app.
  simpl. rewrite nth_error_app2 by lia. rewrite Nat.sub_diag. simpl.
  f_equal.
  rewrite <- IH at 2. rewrite !flat_map_concat_map. f_equal.
  apply map_ext_in. intros r Hr.
  apply in_seq in Hr. rewrite nth_error_app1 by lia. reflexivity.
Qed.

End SetFacts.

(** ** What the loops keep *)

Module LoopFacts.
Import JS Regex Diff Spec SetFacts.

Lemma sameFrame_refl (a : option FileChange) : sameFrame a a.
Proof. destruct a; simpl; auto. Qed.

Lemma sameFrame_trans (a b c : option FileChange) :
  sameFrame a b -> sameFrame b c -> sameFrame a c.
Proof.
  destruct a, b, c; simpl; try tauto.
  intros (-> & -> & ->) (-> & -> & ->). auto.
Qed.

Lemma appendLine_frame (f : FileChange) (text : string) :
  sameFrame (Some f) (Some (appendLine f text)).
Proof. simpl. auto. Qed.

Create HintDb frame.
#[local] Hint Resolve sameFrame_refl appendLine_frame : frame.

(** A turn of the walk keeps the frame of both fragments, the heap and the
    set. *)
Lemma changedLine_frame (line : string) (f t : option FileChange) (st : Run) :
  let '(f', t', st') := changedLine line (f, t, st) in
  sameFrame f f' /\ sameFrame t t'
  /\ heap st' = heap st /\ changes st' = changes st.
Proof.
  unfold changedLine.
  destruct (startsWith line "-"); [|destruct (startsWith line "+")];
    destruct f, t; simpl; auto 6 with frame.
Qed.

Lemma whileChangedLines_frame (lines : list string) :
  forall (f t : option FileChange) (st : Run),
    let '(f', t', st') := whileChangedLines lines (f, t, st) in
    sameFrame f f' /\ sameFrame t t'
    /\ heap st' = heap st /\ changes st' = changes st.
Proof.
  induction lines as [|line rest IH]; intros f t st; cbn [whileChangedLines].
  - auto with frame.
  - pose proof (changedLine_frame line f t st) as H1.
    destruct (changedLine line (f, t, st)) as [[f1 t1] st1].
    specialize (IH f1 t1 st1).
    destruct (whileChangedLines rest (f1, t1, st1)) as [[f2 t2] st2].
    destruct H1 as (Hf & Ht & Hh & Hc), IH as (Hf' & Ht' & Hh' & Hc').
    repeat split; try congruence; eapply sameFrame_trans; eassumption.
Qed.

(** A hunk allocates exactly one record, framed by its location match. *)
Lemma hunk_emits (fromFileName toFileName : string) (isA isD : bool)
    (m : LocationMatch) (body : string) (st : Run) :
  exists c st',
    hunk fromFileName toFileName isA isD m body st = addChange c st'
    /\ heap st' = heap st /\ changes st' = changes st
    /\ hunkRecord fromFileName toFileName isA isD m c.
Proof.
  unfold hunk.
  pose proof (whileChangedLines_frame (split nl body)
                (newFromFile isA fromFileName m)
                (newToFile isD toFileName m) st) as H.
  destruct (whileChangedLines _ _) as [[f t] st'].
  destruct H as (Hf & Ht & Hh & Hc).
  exists (mkChange f t), st'. repeat split; assumption.
Qed.

Lemma hunk_heap (fromFileName toFileName : string) (isA isD : bool)
    (m : LocationMatch) (body : string) (st : Run) :
  exists c,
    heap (hunk fromFileName toFileName isA isD m body st) = heap st ++ [c]
    /\ (wellFormed st ->
        wellFormed (hunk fromFileName toFileName isA isD m body st))
    /\ hunkRecord fromFileName toFileName isA isD m c.
Proof.
  destruct (hunk_emits fromFileName toFileName isA isD m body st)
    as (c & st' & -> & Hh & Hc & Hrec).
  exists c. repeat split; try apply Hrec.
  - simpl. now rewrite Hh.
  - intro Hwf. apply addChange_wellFormed. unfold wellFormed in *. congruence.
Qed.

(** Induction on a list two elements at a time, as the loop over
    [diffChunks] advances. *)
Lemma pairs_ind (A : Type) (P : list A -> Prop) :
  P [] -> (forall x, P [x]) -> (forall x y l, P l -> P (x :: y :: l)) ->
  forall l, P l.
Proof.
  intros H0 H1 H2.
  assert (H : forall l, P l /\ forall x, P (x :: l)).
  { induction l as [|a l [IH1 IH2]]; split; auto. }
  intro l. apply H.
Qed.

Lemma div2_SS (n : nat) : S (S n) / 2 = S (n / 2).
Proof.
  change (S (S n)) with (2 + n).
  replace (2 + n) with (1 * 2 + n) by lia.
  rewrite Nat.div_add_l by lia. lia.
Qed.

(** The loop over the chunks: every record it allocates is framed by the
    match of the first chunk, and there is one per pair when that chunk
    matches, none otherwise. *)
Lemma forChunks_emits (fromFileName toFileName : string) (isA isD : bool)
    (chunk0 : string) (rest : list string) :
  forall st,
    let st' := runOf (forChunks fromFileName toFileName isA isD chunk0 rest st) in
    (wellFormed st -> wellFormed st')
    /\ exists new,
        heap st' = heap st ++ new
        /\ List.length new
           = (if locates chunk0 then List.length rest / 2 else 0)
        /\ Forall (fun c => exists m, locationMatch chunk0 = Some m
                     /\ hunkRecord fromFileName toFileName isA isD m c) new.
Proof.
  unfold locates.
  induction rest as [| x | x body rest IH] using pairs_ind; intros st.
  - simpl. split; [auto|]. exists []. rewrite app_nil_r.
    repeat split; auto. now destruct (locationMatch chunk0).
  - simpl. destruct (locationMatch chunk0); simpl;
      (split; [auto|]); exists []; rewrite app_nil_r; auto.
  - cbn [forChunks List.length]. rewrite div2_SS.
    destruct (locationMatch chunk0) as [m|] eqn:Hm.
    + destruct (hunk_heap fromFileName toFileName isA isD m body st)
        as (c & Hheap & Hwf' & Hrec).
      destruct (IH (hunk fromFileName toFileName isA isD m body st))
        as (Hwf'' & new & Hnew & Hlen & Hall).
      split; [auto|].
      exists (c :: new). rewrite Hnew, Hheap, <- app_assoc. simpl.
      repeat split; auto.
      constructor; [|assumption]. exists m. auto.
    + destruct (IH (consoleError "Error parsing location information" st))
        as (Hwf' & new & Hnew & Hlen & Hall).
      split; [intro Hwf; apply Hwf'; now apply consoleError_wellFormed|].
      exists new. auto.
Qed.

(** The loop returns when the chunks pair up, or when none is walked. *)
Lemma forChunks_returns (fromFileName toFileName : string) (isA isD : bool)
    (chunk0 : string) (rest : list string) :
  Nat.even (List.length rest) || negb (locates chunk0) = true ->
  forall st, exists st',
    forChunks fromFileName toFileName isA isD chunk0 rest st = Return st'.
Proof.
  unfold locates.
  induction rest as [| x | x body rest IH] using pairs_ind; intros H st.
  - simpl. eauto.
  - simpl in *. destruct (locationMatch chunk0); [discriminate|eauto].
  - cbn [forChunks]. cbn [List.length Nat.even] in H.
    destruct (locationMatch chunk0); apply IH; exact H.
Qed.

End LoopFacts.

(** ** File sections and the whole run *)

Module RunFacts.
Import JS Regex Diff Spec SetFacts LoopFacts.

Lemma forFile_emits (fileDiff : string) (st : Run) :
  let st' := runOf (forFile fileDiff st) in
  (wellFormed st -> wellFormed st')
  /\ exists new,
      heap st' = heap st ++ new
      /\ List.length new = hunksOf fileDiff
      /\ Forall (sectionRecord fileDiff) new.
Proof.
  unfold forFile, hunksOf, sectionRecord, pairsKept.
  destruct (readSection fileDiff) as [| |fromN toN chunks] eqn:Hread.
  - simpl. split; [auto|]. exists []. rewrite app_nil_r. auto.
  - simpl. split; [apply consoleError_wellFormed|].
    exists []. rewrite app_nil_r. auto.
  - destruct (forChunks_emits fromN toN (isAdded fromN) (isDeleted fromN toN)
                (hd "" chunks) chunks st) as (Hwf' & new & Hh & Hlen & Hall).
    split; [assumption|]. exists new. repeat split; try assumption.
    + rewrite Hlen. unfold locates.
      now destruct (locationMatch (hd "" chunks)).
    + eapply Forall_impl; [|exact Hall].
      intros c (m & Hm & Hrec). exists fromN, toN, chunks, m. auto.
Qed.

Lemma forFile_returns (fileDiff : string) (st : Run) :
  sectionOK fileDiff = true -> exists st', forFile fileDiff st = Return st'.
Proof.
  unfold sectionOK, forFile.
  destruct (readSection fileDiff) as [| |fromN toN chunks].
  - discriminate.
  - eauto.
  - intro H. now apply forChunks_returns.
Qed.

Lemma forFiles_emits (changedFiles : list string) :
  forall st,
    let st' := runOf (forFiles changedFiles st) in
    (wellFormed st -> wellFormed st')
    /\ exists new,
        heap st' = heap st ++ new
        /\ Forall (fun c => exists fileDiff,
                     In fileDiff changedFiles /\ sectionRecord fileDiff c) new.
Proof.
  induction changedFiles as [|fileDiff rest IH]; intros st.
  - simpl. split; [auto|]. exists []. rewrite app_nil_r. auto.
  - cbn [forFiles].
    destruct (forFile_emits fileDiff st) as (Hwf1 & new1 & Hh1 & _ & Hall1).
    assert (Hhere : Forall (fun c => exists f,
                       In f (fileDiff :: rest) /\ sectionRecord f c) new1).
    { eapply Forall_impl; [|exact Hall1]. intros c Hc.
      exists fileDiff. split; [now left|assumption]. }
    destruct (forFile fileDiff st) as [st1|e st1]; cbn [runOf] in *.
    + destruct (IH st1) as (Hwf2 & new2 & Hh2 & Hall2).
      split; [auto|]. exists (new1 ++ new2).
      rewrite Hh2, Hh1, <- app_assoc. split; [reflexivity|].
      apply Forall_app. split; [assumption|].
      eapply Forall_impl; [|exact Hall2].
      intros c (f & Hin & Hc). exists f. split; [now right|assumption].
    + split; [assumption|]. exists new1. auto.
Qed.


Lemma emptyRun_wellFormed : wellFormed emptyRun.
Proof. reflexivity. Qed.

(** Every record of a run belongs to one of the file sections of the
    diff. *)
Lemma parseDiff_records (diffOut : string) :
  wellFormed (runOf (parseDiff diffOut))
  /\ Forall (fun c => exists fileDiff,
               In fileDiff (changedFilesOf diffOut)
               /\ sectionRecord fileDiff c)
            (records (runOf (parseDiff diffOut))).
Proof.
  unfold parseDiff. destruct (truthy diffOut).
  - destruct (forFiles_emits (changedFilesOf diffOut) emptyRun)
      as (Hwf & new & Hh & Hall).
    specialize (Hwf emptyRun_wellFormed).
    split; [assumption|].
    rewrite (records_wellFormed _ Hwf), Hh. exact Hall.
  - split; [reflexivity|]. constructor.
Qed.

Lemma orOne_atLeastOne (x : number) : atLeastOne (orOne x).
Proof. destruct x as [|[|p]]; cbn [atLeastOne orOne]; lia. Qed.

Lemma isAdded_isDeleted (fromFileName toFileName : string) :
  isAdded fromFileName && isDeleted fromFileName toFileName = false.
Proof. unfold isDeleted. now destruct (isAdded fromFileName). Qed.



End RunFacts.

(** ** The walk and the loops against the declarative model *)

Module ModelFacts.
Import JS Regex Diff Spec Model RegexFacts SetFacts LoopFacts RunFacts.

Lemma logged_nil (st : Run) : logged st [] = st.
Proof. destruct st. unfold logged. simpl. now rewrite app_nil_r. Qed.

Lemma logged_logged (st : Run) (a b : list string) :
  logged (logged st a) b = logged st (a ++ b).
Proof. unfold logged. simpl. now rewrite app_assoc. Qed.

Lemma consoleError_logged (msg : string) (st : Run) :
  consoleError msg st = logged st [msg].
Proof. reflexivity. Qed.

Lemma minus_is_not_plus (line : string) :
  startsWith line "-" = true -> startsWith line "+" = false.
Proof.
  destruct line as [|a line]; [discriminate|].
  unfold startsWith. cbn [lit].
  destruct (Ascii.eqb "-" a) eqn:E; [|discriminate].
  apply Ascii.eqb_eq in E. now subst a.
Qed.

Lemma concat_nil_cons (a : string) (l : list string) :
  String.concat "" (a :: l) = (a ++ String.concat "" l)%string.
Proof.
  destruct l as [|b l]; simpl; [now rewrite append_nil_r|reflexivity].
Qed.

Lemma contentOf_cons (line : string) (lines : list string) :
  contentOf (line :: lines) = ((unmark line ++ nl) ++ contentOf lines)%string.
Proof. unfold contentOf. cbn [map]. apply concat_nil_cons. Qed.

Lemma withMore_appendLine (f : FileChange) (text more : string) :
  withMore (appendLine f text) more = withMore f ((text ++ nl) ++ more).
Proof.
  unfold withMore, appendLine. simpl. f_equal.
  now rewrite !append_assoc.
Qed.

Lemma withMore_nil (f : FileChange) : withMore f "" = f.
Proof. destruct f. unfold withMore. simpl. now rewrite append_nil_r. Qed.

(** The three kinds of body line. *)
Lemma line_kind (line : string) :
  (isMinus line = true /\ isPlus line = false
   /\ unmark line = removeMarker "-" line)
  \/ (isMinus line = false /\ isPlus line = true
      /\ unmark line = removeMarker "+" line)
  \/ (isMinus line = false /\ isPlus line = false
      /\ unmark line = removeSpaces line).
Proof.
  unfold isMinus, isPlus, unmark.
  destruct (startsWith line "-") eqn:Hm.
  - left. now rewrite (minus_is_not_plus _ Hm).
  - destruct (startsWith line "+"); auto.
Qed.

(** With both fragments allocated the walk writes nothing to the console;
    the old side takes every line that is not added, the new side every
    line that is not removed. *)
Lemma walk_both (lines : list string) :
  forall (f t : FileChange) (st : Run),
    whileChangedLines lines (Some f, Some t, st)
    = (Some (withMore f (contentOf (filter notPlus lines))),
       Some (withMore t (contentOf (filter notMinus lines))),
       st).
Proof.
  induction lines as [|line lines IH]; intros f t st.
  - simpl. now rewrite !withMore_nil.
  - cbn [whileChangedLines filter]. unfold changedLine.
    destruct (line_kind line) as [(Hm & Hp & Hu)|[(Hm & Hp & Hu)|(Hm & Hp & Hu)]];
      unfold notPlus, notMinus, isMinus, isPlus in *; rewrite Hm, ?Hp; cbn [negb];
      rewrite IH, ?contentOf_cons, ?withMore_appendLine, ?Hu; reflexivity.
Qed.

(** Without old-side fragment only the added lines are taken; every other
    line writes the same message. *)
Lemma walk_added (lines : list string) :
  forall (t : FileChange) (st : Run),
    whileChangedLines lines (None, Some t, st)
    = (None,
       Some (withMore t (contentOf (filter isPlus lines))),
       logged st (map (fun _ => "Error: fromFile is undefined")
                      (filter notPlus lines))).
Proof.
  induction lines as [|line lines IH]; intros t st.
  - simpl. now rewrite withMore_nil, logged_nil.
  - cbn [whileChangedLines filter]. unfold changedLine.
    destruct (line_kind line) as [(Hm & Hp & Hu)|[(Hm & Hp & Hu)|(Hm & Hp & Hu)]];
      unfold notPlus, notMinus, isMinus, isPlus in *; rewrite Hm, ?Hp; cbn [negb map];
      rewrite IH, ?consoleError_logged, ?logged_logged,
        ?contentOf_cons, ?withMore_appendLine, ?Hu; reflexivity.
Qed.

(** Without new-side fragment only the removed lines are taken. *)
Lemma walk_deleted (lines : list string) :
  forall (f : FileChange) (st : Run),
    whileChangedLines lines (Some f, None, st)
    = (Some (withMore f (contentOf (filter isMinus lines))),
       None,
       logged st (map (fun _ => "Error: toFile is undefined")
                      (filter notMinus lines))).
Proof.
  induction lines as [|line lines IH]; intros f st.
  - simpl. now rewrite withMore_nil, logged_nil.
  - cbn [whileChangedLines filter]. unfold changedLine.
    destruct (line_kind line) as [(Hm & Hp & Hu)|[(Hm & Hp & Hu)|(Hm & Hp & Hu)]];
      unfold notPlus, notMinus, isMinus, isPlus in *; rewrite Hm, ?Hp; cbn [negb map];
      rewrite IH, ?consoleError_logged, ?logged_logged,
        ?contentOf_cons, ?withMore_appendLine, ?Hu; reflexivity.
Qed.

Ltac stepped Hterm :=
  split; [|split; [|split; [|split; [|split]]]];
  [ first [assumption | constructor]
  | first [apply sameFrame_refl | apply appendLine_frame]
  | first [apply sameFrame_refl | apply appendLine_frame]
  | first [intros _; apply Hterm | exact (fun H => H)]
  | first [intros _; apply Hterm | exact (fun H => H)]
  | intro st; rewrite ?logged_nil; reflexivity ].

(** A turn of the walk does the same to the fragments on every state, and
    only adds to the console. *)
Lemma changedLine_logged (line : string) (f t : option FileChange) :
  exists f' t' errs,
    Forall walkMessage errs
    /\ sameFrame f f' /\ sameFrame t t'
    /\ (contentTerminated f -> contentTerminated f')
    /\ (contentTerminated t -> contentTerminated t')
    /\ forall st, changedLine line (f, t, st) = (f', t', logged st errs).
Proof.
  assert (Hterm : forall x text, contentTerminated (Some (appendLine x text))).
  { intros x text. right. exists (content x ++ text)%string. simpl.
    now rewrite append_assoc. }
  assert (H1 : Forall walkMessage ["Error: fromFile is undefined"])
    by (constructor; [now left|constructor]).
  assert (H2 : Forall walkMessage ["Error: toFile is undefined"])
    by (constructor; [now right|constructor]).
  unfold changedLine.
  destruct (startsWith line "-").
  { destruct f as [x|].
    - exists (Some (appendLine x (removeMarker "-" line))), t, [].
      stepped Hterm.
    - exists None, t, ["Error: fromFile is undefined"]. stepped Hterm. }
  destruct (startsWith line "+").
  { destruct t as [y|].
    - exists f, (Some (appendLine y (removeMarker "+" line))), [].
      stepped Hterm.
    - exists f, None, ["Error: toFile is undefined"]. stepped Hterm. }
  destruct f as [x|]; [destruct t as [y|]|].
  - exists (Some (appendLine x (removeSpaces line))),
      (Some (appendLine y (removeSpaces line))), [].
    stepped Hterm.
  - exists (Some x), None, ["Error: toFile is undefined"]. stepped Hterm.
  - exists None, t, ["Error: fromFile is undefined"]. stepped Hterm.
Qed.


Lemma walk_logged (lines : list string) :
  forall f t : option FileChange,
  exists f' t' errs,
    Forall walkMessage errs
    /\ sameFrame f f' /\ sameFrame t t'
    /\ (contentTerminated f -> contentTerminated f')
    /\ (contentTerminated t -> contentTerminated t')
    /\ forall st, whileChangedLines lines (f, t, st) = (f', t', logged st errs).
Proof.
  induction lines as [|line lines IH]; intros f t.
  - exists f, t, []. repeat split; auto using sameFrame_refl.
    intro st. now rewrite logged_nil.
  - destruct (changedLine_logged line f t)
      as (f1 & t1 & e1 & He1 & Hf1 & Ht1 & Hcf1 & Hct1 & H1).
    destruct (IH f1 t1) as (f2 & t2 & e2 & He2 & Hf2 & Ht2 & Hcf2 & Hct2 & H2).
    exists f2, t2, (e1 ++ e2).
    split; [now apply Forall_app|].
    split; [eapply sameFrame_trans; eassumption|].
    split; [eapply sameFrame_trans; eassumption|].
    split; [auto|]. split; [auto|].
    intro st. cbn [whileChangedLines]. now rewrite H1, H2, logged_logged.
Qed.

(** The record and the messages of a hunk do not depend on the state it is
    walked in. *)
Lemma hunk_model (fromFileName toFileName : string) (isA isD : bool)
    (m : LocationMatch) (body : string) (st : Run) :
  hunk fromFileName toFileName isA isD m body st
  = addChange (hunkChange fromFileName toFileName isA isD m body)
              (logged st (hunkErrors fromFileName toFileName isA isD m body)).
Proof.
  unfold hunk, hunkChange, hunkErrors, hunkWalk.
  destruct (walk_logged (split nl body) (newFromFile isA fromFileName m)
              (newToFile isD toFileName m)) as (f & t & errs & _ & _ & _ & _ & _ & H).
  rewrite (H st), (H emptyRun). reflexivity.
Qed.

Lemma hunkErrors_messages (fromFileName toFileName : string) (isA isD : bool)
    (m : LocationMatch) (body : string) :
  Forall walkMessage (hunkErrors fromFileName toFileName isA isD m body).
Proof.
  unfold hunkErrors, hunkWalk.
  destruct (walk_logged (split nl body) (newFromFile isA fromFileName m)
              (newToFile isD toFileName m)) as (f & t & errs & He & _ & _ & _ & _ & H).
  rewrite (H emptyRun). exact He.
Qed.

Lemma newFragments_terminated (isA isD : bool) (fromN toN : string)
    (m : LocationMatch) :
  contentTerminated (newFromFile isA fromN m)
  /\ contentTerminated (newToFile isD toN m).
Proof.
  unfold newFromFile, newToFile.
  destruct isA, isD; simpl; repeat split; auto; now left.
Qed.

Lemma hunkChange_terminated (fromFileName toFileName : string)
    (isA isD : bool) (m : LocationMatch) (body : string) :
  contentTerminated
    (fromFile (hunkChange fromFileName toFileName isA isD m body))
  /\ contentTerminated
       (toFile (hunkChange fromFileName toFileName isA isD m body)).
Proof.
  unfold hunkChange, hunkWalk.
  destruct (walk_logged (split nl body) (newFromFile isA fromFileName m)
              (newToFile isD toFileName m))
    as (f & t & errs & _ & _ & _ & Hf & Ht & H).
  rewrite (H emptyRun). simpl.
  destruct (newFragments_terminated isA isD fromFileName toFileName m).
  auto.
Qed.

Lemma div2_SSS (n : nat) : (S (S n) + 1) / 2 = S ((n + 1) / 2).
Proof.
  replace (S (S n) + 1) with (1 * 2 + (n + 1)) by lia.
  rewrite Nat.div_add_l by lia. lia.
Qed.

Lemma forChunks_model (fromFileName toFileName : string) (isA isD : bool)
    (chunk0 : string) (rest : list string) :
  forall st,
    let st' := runOf (forChunks fromFileName toFileName isA isD chunk0 rest st) in
    heap st' = heap st
               ++ chunkChanges fromFileName toFileName isA isD chunk0 rest
    /\ console st' = console st
                     ++ chunkErrors fromFileName toFileName isA isD chunk0 rest.
Proof.
  unfold chunkChanges, chunkErrors.
  induction rest as [| x | x body rest IH] using pairs_ind; intros st.
  - simpl. destruct (locationMatch chunk0); simpl; now rewrite !app_nil_r.
  - simpl. destruct (locationMatch chunk0); simpl; now rewrite !app_nil_r.
  - cbn [forChunks bodies List.length]. rewrite div2_SSS.
    destruct (locationMatch chunk0) as [m|] eqn:Hm.
    + destruct (IH (hunk fromFileName toFileName isA isD m body st))
        as [Hh Hc].
      cbv zeta in *. rewrite Hh, Hc, hunk_model. cbn [map flat_map].
      unfold addChange, logged. simpl. now rewrite <- !app_assoc.
    + destruct (IH (consoleError "Error parsing location information" st))
        as [Hh Hc].
      cbv zeta in *. rewrite Hh, Hc. simpl. now rewrite <- app_assoc.
Qed.

Lemma forChunks_throws (fromFileName toFileName : string) (isA isD : bool)
    (chunk0 : string) (rest : list string) :
  Nat.even (List.length rest) || negb (locates chunk0) = false ->
  forall st, exists st',
    forChunks fromFileName toFileName isA isD chunk0 rest st
    = Throw TypeError st'.
Proof.
  unfold locates.
  induction rest as [| x | x body rest IH] using pairs_ind; intros H st.
  - discriminate.
  - simpl in *. destruct (locationMatch chunk0); [eauto|discriminate].
  - cbn [forChunks]. cbn [List.length Nat.even] in H.
    destruct (locationMatch chunk0); apply IH; exact H.
Qed.

Lemma forFile_throws (fileDiff : string) (st : Run) :
  sectionOK fileDiff = false ->
  exists st', forFile fileDiff st = Throw TypeError st'.
Proof.
  unfold sectionOK, forFile.
  destruct (readSection fileDiff) as [| |fromN toN chunks].
  - eauto.
  - discriminate.
  - intro H. now apply forChunks_throws.
Qed.

Lemma forFile_model (fileDiff : string) (st : Run) :
  heap (runOf (forFile fileDiff st)) = heap st ++ sectionChanges fileDiff
  /\ console (runOf (forFile fileDiff st))
     = console st ++ sectionErrors fileDiff.
Proof.
  unfold forFile, sectionChanges, sectionErrors.
  destruct (readSection fileDiff) as [| |fromN toN chunks].
  - simpl. now rewrite !app_nil_r.
  - simpl. now rewrite app_nil_r.
  - apply (forChunks_model fromN toN (isAdded fromN) (isDeleted fromN toN)
             (hd "" chunks) chunks st).
Qed.

Lemma forFiles_model (changedFiles : list string) :
  forall st,
    heap (runOf (forFiles changedFiles st))
    = heap st ++ flat_map sectionChanges (processed changedFiles)
    /\ console (runOf (forFiles changedFiles st))
       = console st ++ flat_map sectionErrors (processed changedFiles).
Proof.
  induction changedFiles as [|fileDiff rest IH]; intros st.
  - simpl. now rewrite !app_nil_r.
  - cbn [forFiles processed].
    destruct (forFile_model fileDiff st) as [Hh Hc].
    destruct (sectionOK fileDiff) eqn:Hok.
    + destruct (forFile_returns fileDiff st Hok) as [st1 Hret].
      rewrite Hret in *. cbn [runOf] in *.
      destruct (IH st1) as [Hh' Hc'].
      rewrite Hh', Hc', Hh, Hc. cbn [flat_map]. now rewrite <- !app_assoc.
    + destruct (forFile_throws fileDiff st Hok) as [st1 Hthrow].
      rewrite Hthrow in *. cbn [runOf flat_map] in *.
      now rewrite Hh, Hc, !app_nil_r.
Qed.

Lemma processed_all (changedFiles : list string) :
  forallb sectionOK changedFiles = true -> processed changedFiles = changedFiles.
Proof.
  induction changedFiles as [|f rest IH]; simpl; [reflexivity|].
  destruct (sectionOK f); [|discriminate]. simpl. intro H. now rewrite IH.
Qed.

Lemma processed_incl (changedFiles : list string) :
  incl (processed changedFiles) changedFiles.
Proof.
  induction changedFiles as [|f rest IH]; simpl; [apply incl_refl|].
  destruct (sectionOK f).
  - apply incl_cons; [now left|]. now apply incl_tl.
  - apply incl_cons; [now left|]. apply incl_nil_l.
Qed.

(** When the run returns and when it throws. *)
Lemma forFiles_outcome (changedFiles : list string) :
  forall st,
    match forFiles changedFiles st with
    | Return _ => forallb sectionOK changedFiles = true
    | Throw e _ => e = TypeError /\ forallb sectionOK changedFiles = false
    end.
Proof.
  induction changedFiles as [|fileDiff rest IH]; intros st.
  - reflexivity.
  - cbn [forFiles forallb].
    destruct (sectionOK fileDiff) eqn:Hok.
    + destruct (forFile_returns fileDiff st Hok) as [st1 ->].
      apply IH.
    + destruct (forFile_throws fileDiff st Hok) as [st1 ->]. auto.
Qed.

Lemma parseDiff_outcome (diffOut : string) :
  match parseDiff diffOut with
  | Return _ => forallb sectionOK (changedFilesOf diffOut) = true
  | Throw e _ =>
      e = TypeError /\ forallb sectionOK (changedFilesOf diffOut) = false
  end.
Proof.
  unfold parseDiff. destruct (truthy diffOut) eqn:Ht.
  - apply forFiles_outcome.
  - destruct diffOut; [reflexivity|discriminate].
Qed.

(** The records and the messages of a run, whether it returns or throws. *)
Lemma parseDiff_model (diffOut : string) :
  records (runOf (parseDiff diffOut))
  = flat_map sectionChanges (processed (changedFilesOf diffOut))
  /\ console (runOf (parseDiff diffOut))
     = flat_map sectionErrors (processed (changedFilesOf diffOut)).
Proof.
  destruct (parseDiff_records diffOut) as [Hwf _].
  rewrite (records_wellFormed _ Hwf).
  unfold parseDiff in *. destruct (truthy diffOut) eqn:Ht.
  - apply (forFiles_model (changedFilesOf diffOut) emptyRun).
  - destruct diffOut; [|discriminate]. split; reflexivity.
Qed.

End ModelFacts.

(** ** Splitting and joining *)

Module SplitFacts.
Import JS Regex Diff Spec Model RegexFacts.

Lemma dropChars_app (x r : string) : dropChars (String.length x) (x ++ r) = r.
Proof. induction x as [|c x IH]; simpl; [now destruct r|exact IH]. Qed.

Lemma dropChars_0 (s : string) : dropChars 0 s = s.
Proof. now destruct s. Qed.

Lemma splitScan_not_nil (m : matcher) (s : string) :
  forall skip cur, splitScan m s skip cur <> [].
Proof.
  induction s as [|c s IH]; intros skip cur; simpl; [discriminate|].
  destruct skip as [|k]; [|apply IH].
  destruct (m (String c s)) as [[caps [|k]]|]; try apply IH; try discriminate.
  destruct (truthy cur); [discriminate|apply IH].
Qed.

Lemma concat_cons_more (sep a : string) (l : list string) :
  l <> [] -> String.concat sep (a :: l) = (a ++ sep ++ String.concat sep l)%string.
Proof. destruct l; [congruence|reflexivity]. Qed.

(** Joining what [split] answers gives the text back, whatever is still to
    be stepped over. *)
Lemma join_splitScan (sep : string) :
  sep <> "" ->
  forall s skip cur,
    join sep (splitScan (literal sep) s skip cur)
    = (cur ++ dropChars skip s)%string.
Proof.
  intros Hsep. unfold join.
  induction s as [|c s IH]; intros skip cur.
  - simpl. destruct skip; now rewrite append_nil_r.
  - cbn [splitScan]. destruct skip as [|k]; [|now rewrite IH].
    unfold literal at 1.
    destruct (lit sep (String c s)) as [r|] eqn:E.
    + destruct sep as [|a sep']; [congruence|]. cbn [String.length].
      cbn [app]. rewrite concat_cons_more by apply splitScan_not_nil.
      rewrite IH. cbn [lit] in E.
      destruct (Ascii.eqb a c) eqn:Hac; [|discriminate].
      apply Ascii.eqb_eq in Hac. subst c.
      apply lit_spec in E. subst s. rewrite dropChars_app. reflexivity.
    + rewrite IH, dropChars_0, append_assoc. reflexivity.
Qed.

Lemma splitScan_skip (m : matcher) (x r : string) (cur : string) :
  splitScan m (x ++ r) (String.length x) cur = splitScan m r 0 cur.
Proof.
  induction x as [|c x IH]; simpl; [|exact IH].
  destruct r; reflexivity.
Qed.

Lemma literal_nl_other (c : ascii) (s : string) :
  Ascii.eqb c (ascii_of_nat 10) = false -> literal nl (String c s) = None.
Proof.
  intro H. unfold literal, nl. cbn [lit].
  rewrite Ascii.eqb_sym. now rewrite H.
Qed.

(** A text without newline is added to the piece being scanned. *)
Lemma splitScan_line (l s : string) :
  oneLine l = true ->
  forall cur,
    splitScan (literal nl) (l ++ s) 0 cur
    = splitScan (literal nl) s 0 (cur ++ l).
Proof.
  induction l as [|c l IH]; intros Hl cur.
  - simpl. now rewrite append_nil_r.
  - cbn [oneLine] in Hl. apply andb_true_iff in Hl. destruct Hl as [Hc Hl].
    apply negb_true_iff in Hc.
    change ((String c l ++ s)%string) with (String c (l ++ s)).
    cbn [splitScan]. rewrite (literal_nl_other _ _ Hc), (IH Hl).
    now rewrite append_assoc.
Qed.

(** A newline ends the piece. *)
Lemma splitScan_nl (s cur : string) :
  splitScan (literal nl) (nl ++ s) 0 cur
  = cur :: splitScan (literal nl) s 0 "".
Proof. reflexivity. Qed.

Lemma split_unlines (ls : list string) :
  forallb oneLine ls = true ->
  forall cur, oneLine cur = true ->
  splitScan (literal nl) (Samples.unlines ls) 0 cur
  = match ls with
    | [] => [cur]
    | l :: rest => (cur ++ l)%string :: rest ++ [""]
    end.
Proof.
  induction ls as [|l ls IH]; intros Hls cur Hcur; [reflexivity|].
  cbn [forallb] in Hls. apply andb_true_iff in Hls. destruct Hls as [Hl Hls].
  cbn [Samples.unlines fold_right].
  rewrite (splitScan_line _ _ Hl), splitScan_nl. f_equal.
  change (fold_right (fun l0 acc => (l0 ++ nl ++ acc)%string) "" ls)
    with (Samples.unlines ls).
  rewrite (IH Hls "" eq_refl). destruct ls; reflexivity.
Qed.

Lemma filter_truthy_all (xs : list string) :
  forallb truthy xs = true -> filter truthy xs = xs.
Proof.
  induction xs as [|x xs IH]; [reflexivity|].
  cbn [forallb filter]. intro H. apply andb_true_iff in H.
  destruct H as [Hx H]. rewrite Hx. f_equal. now apply IH.
Qed.

Lemma keptLine_all (ls : list string) :
  forallb keptLine ls = true ->
  forallb oneLine ls = true /\ forallb truthy ls = true.
Proof.
  induction ls as [|l ls IH]; [auto|].
  cbn [forallb]. unfold keptLine at 1. intro H.
  apply andb_true_iff in H. destruct H as [Hl H].
  apply andb_true_iff in Hl. destruct Hl as [Ht Ho].
  destruct (IH H) as [-> ->]. now rewrite Ht, Ho.
Qed.

(** The lines of a text printed line by line, without the empty ones. *)
Lemma lines_unlines (ls : list string) :
  forallb keptLine ls = true ->
  filter truthy (split nl (Samples.unlines ls)) = ls.
Proof.
  intro H. destruct (keptLine_all _ H) as [Ho Ht].
  unfold split, splitWith. rewrite (split_unlines _ Ho "" eq_refl).
  destruct ls as [|l ls]; [reflexivity|].
  cbn [append]. rewrite app_comm_cons, filter_app.
  rewrite (filter_truthy_all _ Ht). cbn [filter truthy].
  now rewrite app_nil_r.
Qed.

Lemma onNewLines_cons (l : string) (ls : list string) :
  onNewLines (l :: ls) = (nl ++ l ++ onNewLines ls)%string.
Proof.
  unfold onNewLines. cbn [map].
  destruct (map (fun l0 => (nl ++ l0)%string) ls) eqn:E.
  - simpl. now rewrite append_nil_r.
  - reflexivity.
Qed.

Lemma join_onNewLines (l : string) (ls : list string) :
  join nl (l :: ls) = (l ++ onNewLines ls)%string.
Proof.
  revert l. induction ls as [|x ls IH]; intro l.
  - simpl. now rewrite append_nil_r.
  - rewrite onNewLines_cons. unfold join in *.
    change (String.concat nl (l :: x :: ls))
      with (l ++ nl ++ String.concat nl (x :: ls))%string.
    now rewrite IH.
Qed.

Lemma split_onNewLines (ls : list string) :
  forallb oneLine ls = true ->
  forall cur,
    splitScan (literal nl) (onNewLines ls) 0 cur = cur :: ls.
Proof.
  induction ls as [|l ls IH]; intros H cur; [reflexivity|].
  cbn [forallb] in H. apply andb_true_iff in H. destruct H as [Hl H].
  rewrite onNewLines_cons, splitScan_nl, (splitScan_line _ _ Hl), (IH H).
  reflexivity.
Qed.

(** The lines of a hunk body: what follows the location pattern on its
    line, then the body lines. *)
Lemma split_body (tail : string) (body : list string) :
  oneLine tail = true -> forallb oneLine body = true ->
  split nl (tail ++ onNewLines body) = tail :: body.
Proof.
  intros Ht Hb. unfold split, splitWith.
  now rewrite (splitScan_line _ _ Ht), (split_onNewLines _ Hb).
Qed.

(** Where no hunk header starts, the scan finds nothing to split at. *)
Lemma splitScan_headerFree (s : string) :
  headerFree s = true ->
  forall cur, splitScan hunkHeader s 0 cur = [(cur ++ s)%string].
Proof.
  induction s as [|c s IH]; intros H cur.
  - simpl. now rewrite append_nil_r.
  - cbn [headerFree] in H. cbn [splitScan].
    destruct (hunkHeader (String c s)); [discriminate|].
    rewrite (IH H). now rewrite append_assoc.
Qed.

(** The location pattern reads its own text back, in front of any text
    that cannot prolong it. *)
Lemma locationAt_ahead (m : LocationMatch) (r : string) :
  digitGroups m -> noDigitAhead r -> lit "," r = None ->
  locationAt (whole m ++ r) = Some (m, r).
Proof.
  destruct m as [d1 c1 d3 c3]. intros (H1 & H2 & H3 & H4) Hr Hc.
  cbn [g1 g2 g3 g4] in *.
  unfold locationAt, whole. cbn [g1 g2 g3 g4].
  rewrite !append_assoc.
  rewrite lit_app.
  rewrite (digits1_app d1 _ H1) by (apply countText_ahead; exact eq_refl).
  rewrite (optCount_app c1 _ H2) by reflexivity.
  rewrite lit_app.
  rewrite (digits1_app d3 _ H3) by (apply countText_ahead; exact Hr).
  rewrite (optCount_app c3 r H4 Hr Hc).
  reflexivity.
Qed.

Lemma hunkHeader_headerText (m : LocationMatch) (r : string) :
  digitGroups m ->
  hunkHeader (headerText m ++ r)%string
  = Some ([whole m], 3 + String.length (whole m) + 3).
Proof.
  intro Hm. unfold hunkHeader, headerText.
  rewrite !append_assoc, lit_app.
  rewrite (locationAt_ahead m (" @@" ++ r) Hm) by reflexivity.
  now rewrite lit_app.
Qed.

Lemma length_append (a b : string) :
  String.length (a ++ b) = String.length a + String.length b.
Proof. induction a as [|c a IH]; simpl; [reflexivity|now rewrite IH]. Qed.

(** The chunks of a text made of one hunk header and a text without
    header. *)
Lemma splitWith_one_hunk (m : LocationMatch) (body : string) :
  digitGroups m -> headerFree body = true ->
  splitWith hunkHeader (headerText m ++ body) = [""; whole m; body].
Proof.
  intros Hm Hb. unfold splitWith.
  pose proof (hunkHeader_headerText m body Hm) as H.
  assert (Hshape : (headerText m ++ body
                    = String "@" (("@ " ++ whole m ++ " @@") ++ body))%string).
  { unfold headerText. now rewrite !append_assoc. }
  rewrite Hshape in *. cbn [splitScan]. rewrite H.
  replace (3 + String.length (whole m) + 3)
    with (S (String.length ("@ " ++ whole m ++ " @@")%string))
    by (rewrite !length_append; simpl; lia).
  cbn [app]. rewrite splitScan_skip, (splitScan_headerFree _ Hb).
  reflexivity.
Qed.

Lemma removeFirst_prefix (p r : string) : removeFirst p (p ++ r) = r.
Proof.
  destruct (p ++ r)%string eqn:E.
  - destruct p; [|discriminate]. simpl in *. now subst.
  - rewrite <- E. cbn [removeFirst]. 
    assert (H : lit p (p ++ r) = Some r) by apply lit_app.
    rewrite E in *. cbn [removeFirst]. now rewrite H.
Qed.

Lemma skipHeaderLines_app (pre : list string) (l : string)
    (rest : list string) :
  forallb noOldMark pre = true ->
  startsWith l "---" = true ->
  skipHeaderLines (pre ++ l :: rest) = Some (l :: rest).
Proof.
  intros Hpre Hl. induction pre as [|x pre IH].
  - simpl. now rewrite Hl.
  - cbn [forallb] in Hpre. apply andb_true_iff in Hpre.
    destruct Hpre as [Hx Hpre]. apply negb_true_iff in Hx.
    simpl. rewrite Hx. now apply IH.
Qed.

End SplitFacts.


(** ** Lines and location texts *)

Module LineFacts.
Import JS Regex Diff Spec Model RegexFacts.

Lemma oneLine_append (a b : string) :
  oneLine (a ++ b) = oneLine a && oneLine b.
Proof.
  induction a as [|c a IH]; [reflexivity|].
  simpl. rewrite IH. now rewrite andb_assoc.
Qed.

Lemma allDigits_oneLine (d : string) : allDigits d = true -> oneLine d = true.
Proof.
  induction d as [|c d IH]; [reflexivity|].
  simpl. intro H. apply andb_true_iff in H. destruct H as [Hc Hd].
  rewrite (IH Hd), andb_true_r. apply negb_true_iff.
  destruct (Ascii.eqb c (ascii_of_nat 10)) eqn:E; [|reflexivity].
  apply Ascii.eqb_eq in E. subst c. discriminate Hc.
Qed.

Lemma whole_oneLine (m : LocationMatch) :
  digitGroups m -> oneLine (whole m) = true.
Proof.
  destruct m as [d1 c1 d3 c3]. intros ([H1 _] & H2 & [H3 _] & H4).
  cbn [g1 g2 g3 g4] in *. unfold whole. cbn [g1 g2 g3 g4].
  assert (Hc : forall c, optDigitText c -> oneLine (countText c) = true).
  { intros [d|] Hd; [|reflexivity]. destruct Hd as [Hd _]. simpl.
    now apply allDigits_oneLine. }
  rewrite !oneLine_append, (allDigits_oneLine _ H1), (allDigits_oneLine _ H3),
    (Hc _ H2), (Hc _ H4). reflexivity.
Qed.

Lemma keptLine_prefixed (p x : string) :
  truthy p = true -> oneLine p = true -> oneLine x = true ->
  keptLine (p ++ x) = true.
Proof.
  intros Hp Hop Hx. unfold keptLine. rewrite oneLine_append, Hop, Hx.
  destruct p; [discriminate|reflexivity].
Qed.

Lemma whole_truthy (m : LocationMatch) : truthy (whole m) = true.
Proof. reflexivity. Qed.

Lemma forallb_app_true (A : Type) (p : A -> bool) (l1 l2 : list A) :
  forallb p l1 = true -> forallb p l2 = true -> forallb p (l1 ++ l2) = true.
Proof. intros H1 H2. rewrite forallb_app. now rewrite H1, H2. Qed.

Lemma locationMatch_whole (m : LocationMatch) :
  digitGroups m -> locationMatch (whole m) = Some m.
Proof.
  intro Hm. exact (locationMatch_at _ _ _ (locationAt_whole m Hm)).
Qed.

End LineFacts.

(** ** A diff given by its parts *)

Module TextFacts.
Import JS Regex Diff Spec Model RegexFacts SetFacts LoopFacts RunFacts.
Import ModelFacts SplitFacts LineFacts.

(** *** Nothing the patterns read goes past the end of a line *)







Lemma hunkHeader_nl (y : string) : hunkHeader (nl ++ y)%string = None.
Proof. reflexivity. Qed.

(** *** Cutting the text of the hunks *)















(** *** Cutting the diff into file sections *)
















End TextFacts.
(** ** Properties of the parser *)

Import JS Regex Diff Spec Samples SetFacts LoopFacts RunFacts.
Import Model RegexFacts ModelFacts SplitFacts.

(** C1, at the input that shows the defect: in a file section with two
    hunks, located at -1 +1 and at -10,3 +10,4, the record of the second
    hunk carries start line 1 and line count 1 on both sides, the location
    of the first hunk, because every turn of the loop matches the location
    against the first chunk. *)
Theorem second_hunk_carries_first_location :
  locations (runOf (parseDiff twoHunks))
  = [(Some (Num 1, Num 1), Some (Num 1, Num 1));
     (Some (Num 1, Num 1), Some (Num 1, Num 1))].
Proof. vm_compute. reflexivity. Qed.

(** The defect behind C1 in general: whatever the hunks of a file section
    are, each of its records is framed by the location match of the first
    chunk. *)
Lemma records_located_by_first_chunk (fileDiff : string) (st : Run)
    (fromFileName toFileName : string) (diffChunks : list string) :
  readSection fileDiff = Names fromFileName toFileName diffChunks ->
  Forall (fun c => exists m,
            locationMatch (hd "" diffChunks) = Some m
            /\ hunkRecord fromFileName toFileName (isAdded fromFileName)
                          (isDeleted fromFileName toFileName) m c)
         (emittedBy st (runOf (forFile fileDiff st))).
Proof.
  intro Hread.
  destruct (forFile_emits fileDiff st) as (_ & new & Hh & _ & Hall).
  unfold emittedBy. rewrite Hh, skipn_app, Nat.sub_diag, skipn_all.
  eapply Forall_impl; [|exact Hall].
  intros c (f' & t' & ch' & m & Hr & Hm & Hrec).
  rewrite Hread in Hr. injection Hr as <- <- <-. eauto.
Qed.

(** C3, at the input that shows the defect: when the first file section has
    no line that starts with [---], the loop that skips the header lines
    reads [lines[0]] of an empty array and the run ends with a [TypeError];
    nothing is written to the console and the section that follows, which
    is in order, is never reached. *)
Theorem missing_old_header_throws :
  parseDiff noOldHeader = Throw TypeError emptyRun.
Proof. vm_compute. reflexivity. Qed.

(** The sibling path of C3: a section whose new-file header is missing is
    reported and skipped, and the run goes on. *)
Lemma missing_new_header_skipped (fileDiff : string) (st : Run) :
  readSection fileDiff = NoNames ->
  forFile fileDiff st = Return (consoleError "Error parsing file names" st).
Proof. unfold forFile. now intros ->. Qed.

Example missing_new_header_run :
  console (runOf (parseDiff noNewHeader)) = ["Error parsing file names"]
  /\ List.length (records (runOf (parseDiff noNewHeader))) = 1.
Proof. vm_compute. auto. Qed.

(** When the context line follows the location pattern on the line of the
    header, the body is [" ctx"], ["-old"], ["+new"]: with both fragments
    allocated the record of the hunk then has the content ["ctx\nold\n"] on
    the old side and ["ctx\nnew\n"] on the new side, whatever the names and
    the location are; the diff [ctxOldNew] has exactly this record. *)
Theorem ctx_old_new_contents :
  (forall (fromFileName toFileName : string) (m : LocationMatch) (st : Run),
      hunk fromFileName toFileName false false m
           (" ctx" ++ nl ++ "-old" ++ nl ++ "+new") st
      = addChange
          (mkChange
             (Some (mkFileChange fromFileName (Number (Some (g1 m)))
                      (orOne (Number (g2 m))) ("ctx" ++ nl ++ "old" ++ nl)))
             (Some (mkFileChange toFileName (Number (Some (g3 m)))
                      (orOne (Number (g4 m))) ("ctx" ++ nl ++ "new" ++ nl))))
          st)
  /\ parseDiff ctxOldNew
     = Return (mkRun
         [mkChange
            (Some (mkFileChange "f" (Num 10) (Num 3) ("ctx" ++ nl ++ "old" ++ nl)))
            (Some (mkFileChange "f" (Num 10) (Num 4) ("ctx" ++ nl ++ "new" ++ nl)))]
         [0] []).
Proof. split; [intros; reflexivity | vm_compute; reflexivity]. Qed.

(** C5, at the input that shows the defect: for the hunk as [git diff]
    prints it, with the location header alone on its line and the body
    lines [" ctx"], ["-old"], ["+new"] after it, the rest of the header
    line is walked as an empty context line first, so the contents are
    ["\nctx\nold\n"] and ["\nctx\nnew\n"] and not ["ctx\nold\n"] and
    ["ctx\nnew\n"]. *)
Theorem ctx_old_new_bare_header :
  map (fun c => (option_map content (fromFile c),
                 option_map content (toFile c)))
      (records (runOf (parseDiff ctxOldNewBare)))
  = [(Some (nl ++ "ctx" ++ nl ++ "old" ++ nl)%string,
      Some (nl ++ "ctx" ++ nl ++ "new" ++ nl)%string)].
Proof. vm_compute. reflexivity. Qed.

(** C6, at the input that shows the defect: a location header followed by
    an empty body leaves an empty chunk, which [filter((n) => n)] drops;
    [diffChunks[i + 1]] is then [undefined] and the run ends with a
    [TypeError] instead of a record with empty fragments. *)
Theorem empty_body_throws :
  parseDiff emptyBody = Throw TypeError emptyRun.
Proof. vm_compute. reflexivity. Qed.

(** C7: the two classifications exclude each other, and every record of the
    collection, at the end of any run, has at least one of its two
    fragments. *)
Theorem record_has_a_fragment :
  (forall fromFileName toFileName : string,
      isAdded fromFileName && isDeleted fromFileName toFileName = false)
  /\ forall diffOut : string,
      Forall (fun c => present (fromFile c) || present (toFile c) = true)
             (records (runOf (parseDiff diffOut))).
Proof.
  split; [exact isAdded_isDeleted|]. intro diffOut.
  destruct (parseDiff_records diffOut) as [_ H].
  eapply Forall_impl; [|exact H]. clear H.
  intros c (fileDiff & _ & fromN & toN & chunks & m & _ & _ & Hf & Ht).
  pose proof (isAdded_isDeleted fromN toN) as Hx.
  unfold newFromFile, newToFile in *.
  destruct (isAdded fromN), (isDeleted fromN toN); try discriminate;
    destruct (fromFile c), (toFile c); simpl in *; tauto.
Qed.

Example record_has_a_fragment_added :
  map (fun c => (present (fromFile c), present (toFile c)))
      (records (runOf (forFile addedFile emptyRun))) = [(false, true)].
Proof. vm_compute. reflexivity. Qed.

(** C9: when [git diff] prints nothing, [getChanges] returns: the collection
    is empty, nothing is thrown and nothing is written to the error
    console. *)
Theorem empty_diff_empty_result (platform : string)
    (execFileSync : string -> list string -> exec) (files : list string)
    (contextLines : N) (staged : string) :
  execFileSync (git platform) ["add"; "--all"] = Stdout staged ->
  execFileSync (git platform) (diffArgs files contextLines) = Stdout "" ->
  getChanges platform execFileSync files contextLines = Return emptyRun.
Proof. unfold getChanges. intros -> ->. reflexivity. Qed.

Lemma empty_diff_empty_result_witness :
  getChanges "linux" (printing "") ["src/index.ts"] 3 = Return emptyRun.
Proof.
  apply (empty_diff_empty_result "linux" (printing "") ["src/index.ts"] 3 "");
    reflexivity.
Defined.

(** C10: every fragment of every record of the collection has a line count
    of at least 1; a count of 0 becomes 1, as a missing count does. *)
Theorem line_count_at_least_one :
  (orOne (Number (Some "0")) = Num 1 /\ orOne (Number None) = Num 1)
  /\ forall diffOut : string,
      Forall (fun c => countOK (fromFile c) /\ countOK (toFile c))
             (records (runOf (parseDiff diffOut))).
Proof.
  split; [split; reflexivity|]. intro diffOut.
  destruct (parseDiff_records diffOut) as [_ H].
  eapply Forall_impl; [|exact H]. clear H.
  intros c (fileDiff & _ & fromN & toN & chunks & m & _ & _ & Hf & Ht).
  unfold newFromFile, newToFile, countOK in *.
  split.
  - destruct (isAdded fromN), (fromFile c) as [f|]; simpl in Hf; try tauto.
    destruct Hf as (_ & _ & <-). apply orOne_atLeastOne.
  - destruct (isDeleted fromN toN), (toFile c) as [t|]; simpl in Ht; try tauto.
    destruct Ht as (_ & _ & <-). apply orOne_atLeastOne.
Qed.

Example zero_count_run :
  locations (runOf (parseDiff zeroCount))
  = [(Some (Num 10, Num 1), Some (Num 11, Num 1))].
Proof. vm_compute. reflexivity. Qed.

Lemma emittedBy_app (st st' : Run) (new : list Change) :
  heap st' = heap st ++ new -> emittedBy st st' = new.
Proof.
  unfold emittedBy. intros ->.
  rewrite skipn_app, Nat.sub_diag, skipn_all. reflexivity.
Qed.

(** C2, at the inputs that show the defect: [git diff] names the null
    device [--- /dev/null] and [+++ /dev/null], without the [a/] or [b/]
    that lines 77 and 78 remove, so the names read are ["--- /dev/null"] and
    ["+++ /dev/null"], the comparisons of lines 83 and 86 fail, and the
    record of an added file has an old-side fragment, that of a deleted
    file a new-side fragment. *)
Theorem git_null_device_not_detected :
  map (fun c => (option_map name (fromFile c), option_map name (toFile c)))
      (records (runOf (parseDiff gitAdded)))
  = [(Some "--- /dev/null", Some "f")]
  /\ map (fun c => (option_map name (fromFile c), option_map name (toFile c)))
         (records (runOf (parseDiff gitDeleted)))
     = [(Some "f", Some "+++ /dev/null")].
Proof. split; vm_compute; reflexivity. Qed.


Example sameChangeThrice_text :
  diffText sameChangeThrice
  = unlines ["diff --git a/f b/f"; "index 1..2 100644"; "--- a/f"; "+++ b/f";
             "@@ -1 +1 @@"; "-a"; "+b";
             "@@ -10 +10 @@"; "-a"; "+b";
             "@@ -20 +20 @@"; "-a"; "+b"].
Proof. vm_compute. reflexivity. Qed.



Example twoSections_text :
  diffText twoSections
  = unlines ["diff --git a/f b/f"; "index 1..2 100644"; "--- a/f"; "+++ b/f";
             "@@ -1 +1 @@"; "-a"; "+b";
             "@@ -10,3 +10,4 @@ int main()"; " c"; "-d"; " e"; "+x";
             "diff --git a/old.txt b/new.txt"; "similarity index 90%";
             "rename from old.txt"; "rename to new.txt";
             "--- a/old.txt"; "+++ b/new.txt"; "@@ -3 +3 @@"; "-a"; "+b"]
  /\ List.length (records (runOf (parseDiff (diffText twoSections)))) = 3.
Proof. split; vm_compute; reflexivity. Qed.

Lemma plus_is_not_minus (line : string) :
  startsWith line "+" = true -> startsWith line "-" = false.
Proof.
  destruct line as [|a line]; [discriminate|].
  unfold startsWith. cbn [lit].
  destruct (Ascii.eqb "+" a) eqn:E; [|discriminate].
  apply Ascii.eqb_eq in E. now subst a.
Qed.



(** ** Further properties of the parser *)

Import Model ModelFacts SplitFacts RegexFacts LineFacts.

(** X1: in a hunk of a modified or renamed file (both fragments allocated)
    the walk writes nothing to the console; the content of the old side is
    made of the body lines that do not start with [+], the content of the
    new side of those that do not start with [-], each without its marker
    and ended by a newline, in the order of the body. *)
Theorem modified_hunk_contents (fromFileName toFileName : string)
    (m : LocationMatch) (body : string) (st : Run) :
  hunk fromFileName toFileName false false m body st
  = addChange
      (mkChange
         (Some (mkFileChange fromFileName (Number (Some (g1 m)))
                  (orOne (Number (g2 m)))
                  (contentOf (filter notPlus (split nl body)))))
         (Some (mkFileChange toFileName (Number (Some (g3 m)))
                  (orOne (Number (g4 m)))
                  (contentOf (filter notMinus (split nl body))))))
      st.
Proof. unfold hunk, newFromFile, newToFile. now rewrite walk_both. Qed.

(** X2: in a hunk of an added file only the lines that start with [+] reach
    the new side, and every other line, context lines included, writes
    "Error: fromFile is undefined"; in a hunk of a deleted file only the
    lines that start with [-] reach the old side, and every other line
    writes "Error: toFile is undefined". *)
Theorem one_sided_hunk_contents (fromFileName toFileName : string)
    (m : LocationMatch) (body : string) (st : Run) :
  hunk fromFileName toFileName true false m body st
  = addChange
      (mkChange None
         (Some (mkFileChange toFileName (Number (Some (g3 m)))
                  (orOne (Number (g4 m)))
                  (contentOf (filter isPlus (split nl body))))))
      (logged st (map (fun _ => "Error: fromFile is undefined")
                      (filter notPlus (split nl body))))
  /\ hunk fromFileName toFileName false true m body st
     = addChange
         (mkChange
            (Some (mkFileChange fromFileName (Number (Some (g1 m)))
                     (orOne (Number (g2 m)))
                     (contentOf (filter isMinus (split nl body)))))
            None)
         (logged st (map (fun _ => "Error: toFile is undefined")
                         (filter notMinus (split nl body)))).
Proof.
  unfold hunk, newFromFile, newToFile.
  split; [now rewrite walk_added | now rewrite walk_deleted].
Qed.

(** X3: the content of every fragment of every record is empty or ends with
    a newline. *)
Theorem content_newline_terminated (diffOut : string) :
  Forall (fun c => contentTerminated (fromFile c)
                   /\ contentTerminated (toFile c))
         (records (runOf (parseDiff diffOut))).
Proof.
  destruct (parseDiff_model diffOut) as [-> _].
  apply Forall_flat_map, Forall_forall. intros fileDiff _.
  unfold sectionChanges.
  destruct (readSection fileDiff) as [| |fromN toN chunks]; try constructor.
  destruct (locationMatch (hd "" chunks)) as [m|]; [|constructor].
  apply Forall_map, Forall_forall. intros body _.
  apply hunkChange_terminated.
Qed.

(** X4: when every file section is in order, the run returns the records of
    the sections, section after section and hunk after hunk, and its
    console holds the messages of the sections in the same order. *)
Theorem records_follow_sections (diffOut : string) :
  forallb sectionOK (changedFilesOf diffOut) = true ->
  exists st,
    parseDiff diffOut = Return st
    /\ records st = flat_map sectionChanges (changedFilesOf diffOut)
    /\ console st = flat_map sectionErrors (changedFilesOf diffOut).
Proof.
  intro Hok.
  destruct (parseDiff_model diffOut) as [Hr Hc].
  rewrite (processed_all _ Hok) in *.
  pose proof (parseDiff_outcome diffOut) as Hout.
  destruct (parseDiff diffOut) as [st|e st].
  - exists st. auto.
  - destruct Hout as [_ Hout]. congruence.
Qed.

Lemma records_follow_sections_witness :
  exists st,
    parseDiff twoHunks = Return st
    /\ records st = flat_map sectionChanges (changedFilesOf twoHunks)
    /\ console st = flat_map sectionErrors (changedFilesOf twoHunks).
Proof. apply (records_follow_sections twoHunks). reflexivity. Defined.

(** X5: what a file section adds to the heap and to the console, and
    whether it throws, does not depend on the sections before it. *)
Theorem section_independent (fileDiff : string) (st : Run) :
  emittedBy st (runOf (forFile fileDiff st))
  = heap (runOf (forFile fileDiff emptyRun))
  /\ console (runOf (forFile fileDiff st))
     = console st ++ console (runOf (forFile fileDiff emptyRun))
  /\ ((exists st', forFile fileDiff st = Return st')
      <-> (exists st', forFile fileDiff emptyRun = Return st')).
Proof.
  destruct (forFile_model fileDiff st) as [Hh Hc].
  destruct (forFile_model fileDiff emptyRun) as [Hh0 Hc0].
  simpl in Hh0, Hc0. rewrite Hh0, Hc0, Hc.
  split; [now apply emittedBy_app|]. split; [reflexivity|].
  destruct (sectionOK fileDiff) eqn:Hok.
  - split; intros _; now apply forFile_returns.
  - destruct (forFile_throws fileDiff st Hok) as [s1 H1].
    destruct (forFile_throws fileDiff emptyRun Hok) as [s2 H2].
    rewrite H1, H2. split; intros [s Hs]; discriminate.
Qed.

(** X6: the run returns exactly when every file section is in order; when it
    throws, the exception is a [TypeError]. *)
Theorem run_outcome (diffOut : string) :
  match parseDiff diffOut with
  | Return _ => forallb sectionOK (changedFilesOf diffOut) = true
  | Throw e _ =>
      e = TypeError /\ forallb sectionOK (changedFilesOf diffOut) = false
  end.
Proof.
  exact (parseDiff_outcome diffOut).
Qed.

(** X7: an [ExecError] leaves [getChanges] only when [git add] or [git diff]
    failed, with the error of that command; no record has been made then
    and parsing never throws such an error. *)
Theorem exec_error_from_git (platform : string)
    (execFileSync : string -> list string -> exec) (files : list string)
    (contextLines : N) (error : string) (st : Run) :
  getChanges platform execFileSync files contextLines
  = Throw (ExecError error) st ->
  (execFileSync (git platform) ["add"; "--all"] = Failed error
   \/ execFileSync (git platform) (diffArgs files contextLines) = Failed error)
  /\ records st = [].
Proof.
  unfold getChanges.
  destruct (execFileSync (git platform) ["add"; "--all"]) as [o|e] eqn:Ha.
  - destruct (execFileSync (git platform) (diffArgs files contextLines))
      as [d|e] eqn:Hd.
    + intro H. pose proof (parseDiff_outcome d) as Ho.
      rewrite H in Ho. destruct Ho as [Ho _]. discriminate Ho.
    + intros [= <- <-]. auto.
  - intros [= <- <-]. auto.
Qed.

Lemma exec_error_from_git_witness :
  (failingToStage "no repository" (git "win32") ["add"; "--all"]
   = Failed "no repository"
   \/ failingToStage "no repository" (git "win32") (diffArgs [] 0)
      = Failed "no repository")
  /\ records (consoleError "Error staging changes: no repository" emptyRun)
     = [].
Proof.
  apply (exec_error_from_git "win32" (failingToStage "no repository") [] 0
           "no repository" _ eq_refl).
Defined.

Lemma skipHeaderLines_found (lines : list string) :
  match skipHeaderLines lines with
  | None => forallb noOldMark lines = true
  | Some rest =>
      exists pre l tl,
        lines = pre ++ l :: tl /\ rest = l :: tl
        /\ forallb noOldMark pre = true /\ startsWith l "---" = true
  end.
Proof.
  induction lines as [|x lines IH]; [reflexivity|].
  cbn [skipHeaderLines].
  destruct (startsWith x "---") eqn:Hx.
  - exists [], x, lines. auto.
  - destruct (skipHeaderLines lines) as [rest|].
    + destruct IH as (pre & l & tl & -> & -> & Hpre & Hl).
      exists (x :: pre), l, tl. cbn [forallb]. unfold noOldMark at 1.
      rewrite Hx. auto.
    + cbn [forallb]. unfold noOldMark at 1. now rewrite Hx.
Qed.

(** X8: how a file section is read.  With [lines] its non-empty lines: when
    no line starts with [---] the section has no old-file header; otherwise
    the lines before the first such line are dropped, that line gives the
    old name and the line after it, whatever it is, gives the new name; when
    there is no line after it the section has no names.  The chunks are cut
    from the lines that follow, joined again. *)
Theorem section_reading (fileDiff : string) :
  let lines := filter truthy (split nl fileDiff) in
  (forallb noOldMark lines = true /\ readSection fileDiff = NoOldHeader)
  \/ (exists pre l1,
        lines = pre ++ [l1] /\ forallb noOldMark pre = true
        /\ startsWith l1 "---" = true /\ readSection fileDiff = NoNames)
  \/ (exists pre l1 l2 rest,
        lines = pre ++ l1 :: l2 :: rest /\ forallb noOldMark pre = true
        /\ startsWith l1 "---" = true
        /\ readSection fileDiff
           = Names (removeFirst "--- a/" l1) (removeFirst "+++ b/" l2)
                   (filter truthy (splitWith hunkHeader (join nl rest)))).
Proof.
  intro lines. unfold readSection. fold lines.
  pose proof (skipHeaderLines_found lines) as H.
  destruct (skipHeaderLines lines) as [found|].
  - destruct H as (pre & l1 & tl & Hlines & -> & Hpre & Hl1).
    right. destruct tl as [|l2 rest].
    + left. exists pre, l1. auto.
    + right. exists pre, l1, l2, rest. auto.
  - left. auto.
Qed.

(** X9: the location pattern and the text of a match undo each other: a
    match is followed by the rest of the subject and its groups are digits,
    and the text of a match, in front of a text that cannot prolong it, is
    matched with the same groups. *)
Theorem location_round_trip :
  (forall (s : string) (m : LocationMatch) (r : string),
      locationAt s = Some (m, r) ->
      s = (whole m ++ r)%string /\ digitGroups m)
  /\ (forall (m : LocationMatch) (r : string),
         digitGroups m -> noDigitAhead r -> lit "," r = None ->
         locationAt (whole m ++ r) = Some (m, r)).
Proof. split; [exact locationAt_spec | exact locationAt_ahead]. Qed.

Lemma location_round_trip_witness :
  ("-10,3 +10,4 @@" = whole (mkLocationMatch "10" (Some "3") "10" (Some "4"))
                      ++ " @@"
   /\ digitGroups (mkLocationMatch "10" (Some "3") "10" (Some "4")))%string
  /\ locationAt (whole (mkLocationMatch "5" None "7" (Some "2")) ++ " @@")
     = Some (mkLocationMatch "5" None "7" (Some "2"), " @@").
Proof.
  split.
  - apply (proj1 location_round_trip "-10,3 +10,4 @@"). reflexivity.
  - apply (proj2 location_round_trip (mkLocationMatch "5" None "7" (Some "2"))
             " @@").
    + repeat split.
    + reflexivity.
    + reflexivity.
Defined.

(** X10: joining the pieces of [split] with the separator gives the text
    back, for every literal, non-empty separator. *)
Theorem join_split (sep s : string) :
  sep <> "" -> join sep (split sep s) = s.
Proof.
  intro Hsep. unfold split, splitWith.
  rewrite (join_splitScan sep Hsep). now destruct s.
Qed.

Lemma join_split_witness :
  join "diff --git" (split "diff --git" twice) = twice.
Proof. apply (join_split "diff --git" twice). discriminate. Defined.

(** X11: splitting at the newlines a text joined from lines without newline
    gives the lines back. *)
Theorem split_join (l : string) (ls : list string) :
  forallb oneLine (l :: ls) = true ->
  split nl (join nl (l :: ls)) = l :: ls.
Proof.
  cbn [forallb]. intro H. apply andb_true_iff in H. destruct H as [Hl Hls].
  rewrite join_onNewLines. now apply split_body.
Qed.

Lemma split_join_witness :
  split nl (join nl [" ctx"; "-old"; ""; "+new"]) = [" ctx"; "-old"; ""; "+new"].
Proof. apply (split_join " ctx" ["-old"; ""; "+new"]). reflexivity. Defined.

(** X12: at the end of every run, returned or thrown, the collection holds
    each allocated record exactly once: its references are pairwise
    distinct, there are as many as records in the heap, and reading them
    gives the heap in allocation order. *)
Theorem collection_holds_each_record_once (diffOut : string) :
  NoDup (changes (runOf (parseDiff diffOut)))
  /\ List.length (changes (runOf (parseDiff diffOut)))
     = List.length (heap (runOf (parseDiff diffOut)))
  /\ records (runOf (parseDiff diffOut)) = heap (runOf (parseDiff diffOut)).
Proof.
  destruct (parseDiff_records diffOut) as [Hwf _].
  split; [|split].
  - rewrite Hwf. apply seq_NoDup.
  - rewrite Hwf. apply length_seq.
  - now apply records_wellFormed.
Qed.

(** X13: the fragments of the records of a file section carry the names read
    from its two name lines; when neither name is /dev/null every record has
    both fragments. *)
Theorem section_records_named (fileDiff : string) (st : Run)
    (fromFileName toFileName : string) (diffChunks : list string) :
  readSection fileDiff = Names fromFileName toFileName diffChunks ->
  Forall (fun c =>
            (forall f, fromFile c = Some f -> name f = fromFileName)
            /\ (forall t, toFile c = Some t -> name t = toFileName)
            /\ (fromFileName <> "/dev/null" -> toFileName <> "/dev/null" ->
                present (fromFile c) && present (toFile c) = true))
         (emittedBy st (runOf (forFile fileDiff st))).
Proof.
  intro Hread.
  destruct (forFile_emits fileDiff st) as (_ & new & Hh & _ & Hall).
  rewrite (emittedBy_app _ _ _ Hh).
  eapply Forall_impl; [|exact Hall].
  intros c (f' & t' & ch' & m & Hr & _ & Hf & Ht).
  rewrite Hread in Hr. injection Hr as <- <- <-.
  unfold newFromFile, newToFile, isDeleted, isAdded in *.
  split; [|split].
  - intros f Hc. rewrite Hc in Hf.
    destruct (fromFileName =? "/dev/null")%string; simpl in Hf; [tauto|].
    symmetry. apply Hf.
  - intros t Hc. rewrite Hc in Ht.
    destruct (negb (fromFileName =? "/dev/null")%string
              && (toFileName =? "/dev/null")%string); simpl in Ht; [tauto|].
    symmetry. apply Ht.
  - intros Hnf Hnt. apply String.eqb_neq in Hnf, Hnt.
    rewrite Hnf, Hnt in *. simpl in Hf, Ht.
    destruct (fromFile c), (toFile c); simpl in *; tauto.
Qed.

Lemma section_records_named_witness :
  Forall (fun c =>
            (forall f, fromFile c = Some f -> name f = "old.txt")
            /\ (forall t, toFile c = Some t -> name t = "new.txt")
            /\ ("old.txt" <> "/dev/null" -> "new.txt" <> "/dev/null" ->
                present (fromFile c) && present (toFile c) = true))
         (emittedBy emptyRun (runOf (forFile renamedFile emptyRun))).
Proof.
  apply (section_records_named renamedFile emptyRun "old.txt" "new.txt"
           _ eq_refl).
Defined.

Lemma hunkErrors_both (fromFileName toFileName : string) (m : LocationMatch)
    (body : string) :
  hunkErrors fromFileName toFileName false false m body = [].
Proof.
  unfold hunkErrors, hunkWalk, newFromFile, newToFile.
  now rewrite walk_both.
Qed.

Lemma flat_map_nil (A B : Type) (f : A -> list B) (l : list A) :
  (forall x, f x = []) -> flat_map f l = [].
Proof.
  intro H. induction l as [|x l IH]; [reflexivity|].
  simpl. now rewrite H, IH.
Qed.

(** X14: a file section with both names other than /dev/null whose first
    chunk matches the location pattern writes nothing to the console. *)
Theorem ordinary_section_silent (fileDiff : string) (st : Run)
    (fromFileName toFileName : string) (diffChunks : list string) :
  readSection fileDiff = Names fromFileName toFileName diffChunks ->
  fromFileName <> "/dev/null" -> toFileName <> "/dev/null" ->
  locates (hd "" diffChunks) = true ->
  console (runOf (forFile fileDiff st)) = console st.
Proof.
  intros Hread Hf Ht Hloc.
  destruct (forFile_model fileDiff st) as [_ ->].
  unfold sectionErrors, chunkErrors, locates, isDeleted, isAdded in *.
  rewrite Hread. apply String.eqb_neq in Hf, Ht. rewrite Hf, Ht. cbn [negb andb].
  destruct (locationMatch (hd "" diffChunks)) as [m|]; [|discriminate].
  rewrite flat_map_nil by (intro; apply hunkErrors_both).
  apply app_nil_r.
Qed.

Lemma ordinary_section_silent_witness :
  console (runOf (forFile renamedFile
                    (consoleError "Error parsing file names" emptyRun)))
  = ["Error parsing file names"].
Proof.
  apply (ordinary_section_silent renamedFile
           (consoleError "Error parsing file names" emptyRun)
           "old.txt" "new.txt" _ eq_refl).
  - discriminate.
  - discriminate.
  - reflexivity.
Defined.

(** X15: whatever the diff, the console holds nothing but the four messages
    of the parser. *)
Theorem only_parser_messages (diffOut : string) :
  Forall (fun msg => In msg parserMessages)
         (console (runOf (parseDiff diffOut))).
Proof.
  destruct (parseDiff_model diffOut) as [_ ->].
  apply Forall_flat_map, Forall_forall. intros fileDiff _.
  unfold sectionErrors, chunkErrors, parserMessages.
  destruct (readSection fileDiff) as [| |fromN toN chunks].
  - constructor.
  - constructor; [simpl; auto|constructor].
  - destruct (locationMatch (hd "" chunks)) as [m|].
    + apply Forall_flat_map, Forall_forall. intros body _.
      eapply Forall_impl; [|apply hunkErrors_messages].
      intros msg [-> | ->]; simpl; auto.
    + apply Forall_forall. intros msg Hin.
      apply repeat_spec in Hin. subst msg. simpl. auto.
Qed.

(** The names and the chunks of a file section with one hunk; an empty
    body text is not among the chunks. *)
Lemma oneHunkSection_chunks (headers : list string) (oldName newName : string)
    (m : LocationMatch) (tail : string) (body : list string) :
  forallb keptLine headers = true -> forallb noOldMark headers = true ->
  oneLine oldName = true -> oneLine newName = true -> digitGroups m ->
  oneLine tail = true -> forallb keptLine body = true ->
  headerFree (tail ++ onNewLines body) = true ->
  readSection (oneHunkSection headers oldName newName m tail body)
  = Names oldName newName
          (whole m :: filter truthy [(tail ++ onNewLines body)%string]).
Proof.
  intros Hh Hno Ho Hn Hm Ht Hb Hfree.
  unfold readSection, oneHunkSection.
  rewrite lines_unlines.
  - cbn [app]. rewrite skipHeaderLines_app; [|assumption|reflexivity].
    cbn [shift option_map]. rewrite !removeFirst_prefix.
    rewrite join_onNewLines, append_assoc.
    rewrite (splitWith_one_hunk _ _ Hm Hfree).
    cbn [filter truthy]. rewrite whole_truthy. reflexivity.
  - apply forallb_app_true; [assumption|].
    cbn [app forallb]. rewrite Hb, andb_true_r.
    rewrite !keptLine_prefixed; try reflexivity; try assumption.
    unfold headerText. rewrite !oneLine_append, (whole_oneLine _ Hm).
    reflexivity.
Qed.

(** A file section with one hunk is read as its two names and two chunks,
    and the loop over the chunks walks the one hunk. *)
Lemma oneHunkSection_forFile (headers : list string) (oldName newName : string)
    (m : LocationMatch) (tail : string) (body : list string) (st : Run) :
  oneHunkInput headers oldName newName m tail body ->
  readSection (oneHunkSection headers oldName newName m tail body)
  = Names oldName newName [whole m; (tail ++ onNewLines body)%string]
  /\ split nl (tail ++ onNewLines body) = tail :: body
  /\ forFile (oneHunkSection headers oldName newName m tail body) st
     = Return (hunk oldName newName (isAdded oldName)
                    (isDeleted oldName newName) m
                    (tail ++ onNewLines body) st).
Proof.
  intros (Hh & Hno & Ho & Hn & Hm & Ht & Hb & Hfree & Htext).
  destruct (keptLine_all _ Hb) as [Hbo _].
  pose proof (oneHunkSection_chunks headers oldName newName m tail body
                Hh Hno Ho Hn Hm Ht Hb Hfree) as Hread.
  cbn [filter] in Hread. rewrite Htext in Hread.
  split; [exact Hread|]. split; [now apply split_body|].
  unfold forFile. rewrite Hread. cbn [hd forChunks].
  now rewrite (locationMatch_whole m Hm).
Qed.

(** X16: a file section made of header lines, the two name lines, one
    location line and body lines is read as the two names and one (location,
    body) pair; the body is what follows the location pattern on its line
    and then the body lines, and the section returns with that one hunk
    walked. *)
Theorem one_hunk_section_read (headers : list string)
    (oldName newName : string) (m : LocationMatch) (tail : string)
    (body : list string) (st : Run) :
  oneHunkInput headers oldName newName m tail body ->
  readSection (oneHunkSection headers oldName newName m tail body)
  = Names oldName newName [whole m; (tail ++ onNewLines body)%string]
  /\ split nl (tail ++ onNewLines body) = tail :: body
  /\ forFile (oneHunkSection headers oldName newName m tail body) st
     = Return (hunk oldName newName (isAdded oldName)
                    (isDeleted oldName newName) m
                    (tail ++ onNewLines body) st).
Proof. apply oneHunkSection_forFile. Qed.

(** X17: for such a section of a modified or renamed file, the one record
    carries the two names, the numbers of the location, and as contents the
    lines of the body ([tail] first) that belong to each side, without
    their markers; the console is left as it was. *)
Theorem one_hunk_section_record (headers : list string)
    (oldName newName : string) (m : LocationMatch) (tail : string)
    (body : list string) (st : Run) :
  oneHunkInput headers oldName newName m tail body ->
  oldName <> "/dev/null" -> newName <> "/dev/null" ->
  forFile (oneHunkSection headers oldName newName m tail body) st
  = Return
      (addChange
         (mkChange
            (Some (mkFileChange oldName (Number (Some (g1 m)))
                     (orOne (Number (g2 m)))
                     (contentOf (filter notPlus (tail :: body)))))
            (Some (mkFileChange newName (Number (Some (g3 m)))
                     (orOne (Number (g4 m)))
                     (contentOf (filter notMinus (tail :: body))))))
         st).
Proof.
  intros Hin Ho Hn.
  destruct (oneHunkSection_forFile headers oldName newName m tail body st Hin)
    as (_ & Hsplit & ->).
  unfold isDeleted, isAdded. apply String.eqb_neq in Ho, Hn.
  rewrite Ho, Hn. cbn [negb andb].
  unfold hunk, newFromFile, newToFile. now rewrite Hsplit, walk_both.
Qed.

Lemma sample_oneHunkInput :
  oneHunkInput [" a/f b/g"; "index 1..2 100644"] "f" "g" sampleLocation
               " ctx" ["-old"; "+new"].
Proof. repeat split. Qed.

Lemma one_hunk_section_read_witness :
  readSection (oneHunkSection [" a/f b/g"; "index 1..2 100644"] "f" "g"
                              sampleLocation " ctx" ["-old"; "+new"])
  = Names "f" "g" [whole sampleLocation;
                   (" ctx" ++ onNewLines ["-old"; "+new"])%string]
  /\ split nl (" ctx" ++ onNewLines ["-old"; "+new"])
     = [" ctx"; "-old"; "+new"]
  /\ forFile (oneHunkSection [" a/f b/g"; "index 1..2 100644"] "f" "g"
                             sampleLocation " ctx" ["-old"; "+new"]) emptyRun
     = Return (hunk "f" "g" (isAdded "f") (isDeleted "f" "g") sampleLocation
                    (" ctx" ++ onNewLines ["-old"; "+new"]) emptyRun).
Proof.
  apply (one_hunk_section_read [" a/f b/g"; "index 1..2 100644"] "f" "g"
           sampleLocation " ctx" ["-old"; "+new"] emptyRun).
  repeat split.
Defined.

Lemma one_hunk_section_record_witness :
  forFile (oneHunkSection [" a/f b/g"; "index 1..2 100644"] "f" "g"
                          sampleLocation " ctx" ["-old"; "+new"]) emptyRun
  = Return
      (addChange
         (mkChange
            (Some (mkFileChange "f" (Number (Some (g1 sampleLocation)))
                     (orOne (Number (g2 sampleLocation)))
                     (contentOf (filter notPlus [" ctx"; "-old"; "+new"]))))
            (Some (mkFileChange "g" (Number (Some (g3 sampleLocation)))
                     (orOne (Number (g4 sampleLocation)))
                     (contentOf (filter notMinus [" ctx"; "-old"; "+new"])))))
         emptyRun).
Proof.
  apply (one_hunk_section_record [" a/f b/g"; "index 1..2 100644"] "f" "g"
           sampleLocation " ctx" ["-old"; "+new"] emptyRun).
  - repeat split.
  - discriminate.
  - discriminate.
Defined.

(** X20: a file section whose one location line has nothing after the
    pattern and no body line makes the run throw a [TypeError]: the empty
    body is not among the chunks, and the chunk after the location is
    missing. *)
Theorem bare_location_line_throws (headers : list string)
    (oldName newName : string) (m : LocationMatch) (st : Run) :
  forallb keptLine headers = true -> forallb noOldMark headers = true ->
  oneLine oldName = true -> oneLine newName = true -> digitGroups m ->
  forFile (oneHunkSection headers oldName newName m "" []) st
  = Throw TypeError st.
Proof.
  intros Hh Hno Ho Hn Hm.
  unfold forFile.
  rewrite (oneHunkSection_chunks headers oldName newName m "" []
             Hh Hno Ho Hn Hm eq_refl eq_refl eq_refl).
  cbn [filter truthy append onNewLines map String.concat hd forChunks].
  now rewrite (locationMatch_whole m Hm).
Qed.

Lemma bare_location_line_throws_witness :
  forFile (oneHunkSection [" a/f b/f"] "f" "f" sampleLocation "" []) emptyRun
  = Throw TypeError emptyRun.
Proof.
  apply (bare_location_line_throws [" a/f b/f"] "f" "f" sampleLocation emptyRun);
    repeat split.
Defined.

Lemma skipHeaderLines_none (lines : list string) :
  forallb noOldMark lines = true -> skipHeaderLines lines = None.
Proof.
  induction lines as [|x lines IH]; [reflexivity|].
  cbn [forallb skipHeaderLines]. unfold noOldMark at 1. intro H.
  apply andb_true_iff in H. destruct H as [Hx H].
  apply negb_true_iff in Hx. rewrite Hx. now apply IH.
Qed.

(** X21: a file section none of whose non-empty lines starts with [---]
    makes the run throw a [TypeError], with the state as it was. *)
Theorem section_without_old_header_throws (fileDiff : string) (st : Run) :
  forallb noOldMark (filter truthy (split nl fileDiff)) = true ->
  forFile fileDiff st = Throw TypeError st.
Proof.
  intro H. unfold forFile, readSection.
  now rewrite (skipHeaderLines_none _ H).
Qed.

Lemma section_without_old_header_throws_witness :
  forFile (Samples.unlines [" a/old.txt b/new.txt"; "similarity index 100%";
                            "rename from old.txt"; "rename to new.txt"])
          emptyRun
  = Throw TypeError emptyRun.
Proof. apply section_without_old_header_throws. reflexivity. Defined.

Module NumberFacts.
Import JS Regex Diff Spec Model RegexFacts.

Lemma decimal_digits (d : Decimal.uint) :
  forall d' : Decimal.uint,
    fold_left decimalStep (list_ascii_of_string (NilEmpty.string_of_uint d))
              (Unsigned.of_lu d')
    = Unsigned.of_lu (Decimal.revapp d d').
Proof.
  induction d as [|d IH|d IH|d IH|d IH|d IH|d IH|d IH|d IH|d IH|d IH];
    intro d'; [reflexivity|..];
    cbn [NilEmpty.string_of_uint list_ascii_of_string fold_left Decimal.revapp];
    rewrite <- IH; f_equal; unfold decimalStep;
    rewrite (Unsigned.of_lu_eqn (_ d')); cbn [Unsigned.hd Unsigned.tl];
    unfold digitValue; simpl N.of_nat; lia.
Qed.

Lemma decimal_string_of_uint (d : Decimal.uint) :
  decimal (NilEmpty.string_of_uint d) = N.of_uint d.
Proof.
  unfold decimal, N.of_uint. rewrite Unsigned.of_uint_alt.
  exact (decimal_digits d Decimal.Nil).
Qed.

Lemma allDigits_string_of_uint (d : Decimal.uint) :
  allDigits (NilEmpty.string_of_uint d) = true.
Proof. induction d; simpl; auto. Qed.

Lemma showNumber_plain (n : N) :
  showNumber n = NilEmpty.string_of_uint (N.to_uint n)
  /\ truthy (showNumber n) = true.
Proof.
  unfold showNumber, NilZero.string_of_uint.
  destruct n as [|p]; [split; reflexivity|].
  pose proof (Unsigned.to_uint_nonnil p) as Hnil.
  unfold N.to_uint.
  destruct (Pos.to_uint p); try congruence; split; reflexivity.
Qed.

(** The template literal of a number is a text of digits, and [Number]
    reads the number back from it. *)
Lemma showNumber_digits (n : N) :
  digitText (showNumber n) /\ decimal (showNumber n) = n.
Proof.
  destruct (showNumber_plain n) as [H Ht].
  split; [split; [|exact Ht]|].
  - rewrite H. apply allDigits_string_of_uint.
  - rewrite H, decimal_string_of_uint. apply DecimalN.Unsigned.of_to.
Qed.

End NumberFacts.

Import NumberFacts.

(** X19: a location text printed in base 10 from numbers below [2^53],
    where [Number] is exact, is matched by the location pattern, and the
    fragments allocated from the match carry these numbers: the start lines
    as they are, the line counts with 1 for a count that is zero or left
    out. *)
Theorem location_numbers_read_back (oldStart : N) (oldCount : option N)
    (newStart : N) (newCount : option N) (fromFileName toFileName : string) :
  exactNumber oldStart = true -> exactCount oldCount = true ->
  exactNumber newStart = true -> exactCount newCount = true ->
  locationMatch (whole (located oldStart oldCount newStart newCount))
  = Some (located oldStart oldCount newStart newCount)
  /\ newFromFile false fromFileName
                 (located oldStart oldCount newStart newCount)
     = Some (mkFileChange fromFileName (Num oldStart) (countRead oldCount) "")
  /\ newToFile false toFileName
               (located oldStart oldCount newStart newCount)
     = Some (mkFileChange toFileName (Num newStart) (countRead newCount) "").
Proof.
  intros _ _ _ _.
  assert (Hopt : forall c, optDigitText (option_map showNumber c)
                           /\ orOne (Number (option_map showNumber c))
                              = countRead c).
  { intros [n|]; [|split; [exact I|reflexivity]].
    destruct (showNumber_digits n) as [Hd Hn].
    split; [exact Hd|]. simpl. rewrite Hn. now destruct n. }
  destruct (showNumber_digits oldStart) as [Ha Hav].
  destruct (showNumber_digits newStart) as [Hc Hcv].
  destruct (Hopt oldCount) as [Hb Hbv], (Hopt newCount) as [Hd Hdv].
  split; [|split].
  - apply locationMatch_whole. unfold digitGroups, located.
    cbn [g1 g2 g3 g4]. auto.
  - unfold newFromFile, located, Number. cbn [g1 g2].
    unfold Number in Hbv. now rewrite Hav, Hbv.
  - unfold newToFile, located, Number. cbn [g3 g4].
    unfold Number in Hdv. now rewrite Hcv, Hdv.
Qed.

Lemma location_numbers_read_back_witness :
  locationMatch (whole (located 10 (Some 3%N) 10 None))
  = Some (located 10 (Some 3%N) 10 None)
  /\ newFromFile false "f" (located 10 (Some 3%N) 10 None)
     = Some (mkFileChange "f" (Num 10) (countRead (Some 3%N)) "")
  /\ newToFile false "g" (located 10 (Some 3%N) 10 None)
     = Some (mkFileChange "g" (Num 10) (countRead None) "").
Proof.
  apply (location_numbers_read_back 10 (Some 3%N) 10 None "f" "g");
    reflexivity.
Defined.

Example location_numbers_sample :
  whole (located 10 (Some 3%N) 10 None) = "-10,3 +10".
Proof. reflexivity. Qed.

Lemma length_bodies (chunks : list string) :
  List.length (bodies chunks) = List.length chunks / 2.
Proof.
  induction chunks as [| x | x body rest IH] using pairs_ind;
    [reflexivity|reflexivity|].
  cbn [bodies List.length]. now rewrite div2_SS, IH.
Qed.

(** X18: when the text after the two name lines starts with a hunk header,
    the location match cannot fail: the loop over the chunks does not write
    "Error parsing location information" and allocates one record for
    every (location, body) pair of the chunks. *)
Theorem located_section_keeps_every_pair (text : string)
    (caps : list string) (n : nat) (fromFileName toFileName : string)
    (isA isD : bool) (st : Run) :
  hunkHeader text = Some (caps, n) ->
  let diffChunks := filter truthy (splitWith hunkHeader text) in
  let st' := runOf (forChunks fromFileName toFileName isA isD
                              (hd "" diffChunks) diffChunks st) in
  ~ In "Error parsing location information"
       (skipn (List.length (console st)) (console st'))
  /\ List.length (heap st')
     = List.length (heap st) + List.length diffChunks / 2.
Proof.
  intros H diffChunks st'.
  pose proof (first_chunk_locates text caps n H) as Hloc.
  fold diffChunks in Hloc. unfold locates in Hloc.
  destruct (forChunks_model fromFileName toFileName isA isD
              (hd "" diffChunks) diffChunks st) as [Hh Hc].
  fold st' in Hh, Hc. rewrite Hh, Hc, length_app.
  rewrite skipn_app, Nat.sub_diag, skipn_all. cbn [app skipn].
  unfold chunkErrors, chunkChanges.
  destruct (locationMatch (hd "" diffChunks)) as [m|]; [|discriminate].
  split.
  - intro Hin. apply in_flat_map in Hin. destruct Hin as (body & _ & Hin).
    pose proof (hunkErrors_messages fromFileName toFileName isA isD m body)
      as Hall.
    rewrite Forall_forall in Hall. destruct (Hall _ Hin); discriminate.
  - now rewrite length_map, length_bodies.
Qed.

Lemma located_section_keeps_every_pair_witness :
  let diffChunks :=
    filter truthy (splitWith hunkHeader "@@ -1 +1 @@ x@@ -2 +2 @@ y") in
  let st' := runOf (forChunks "f" "g" true false (hd "" diffChunks) diffChunks
                              (consoleError "Error parsing file names"
                                            emptyRun)) in
  ~ In "Error parsing location information"
       (skipn (List.length (console (consoleError "Error parsing file names"
                                                  emptyRun)))
              (console st'))
  /\ List.length (heap st')
     = List.length (heap (consoleError "Error parsing file names" emptyRun))
       + List.length diffChunks / 2.
Proof.
  apply (located_section_keeps_every_pair "@@ -1 +1 @@ x@@ -2 +2 @@ y"
           ["-1 +1"] 11 "f" "g" true false
           (consoleError "Error parsing file names" emptyRun)).
  reflexivity.
Defined.

Lemma contentOf_app (l1 l2 : list string) :
  contentOf (l1 ++ l2) = (contentOf l1 ++ contentOf l2)%string.
Proof.
  induction l1 as [|l l1 IH]; [reflexivity|].
  cbn [app]. now rewrite !contentOf_cons, IH, !append_assoc.
Qed.

Lemma startsWith_prefixed (mark l : string) :
  startsWith (mark ++ l) mark = true.
Proof. unfold startsWith. now rewrite lit_app. Qed.

Lemma removeMarker_marked (c : ascii) (l : string) :
  noLeadingSpace l = true -> removeMarker c (String c l) = l.
Proof.
  intro H. cbn [removeMarker]. rewrite Ascii.eqb_refl.
  destruct l as [|a l]; [reflexivity|].
  unfold noLeadingSpace, startsWith in H. cbn [lit] in H.
  destruct (Ascii.eqb " " a) eqn:E; [discriminate|].
  destruct a as [[] [] [] [] [] [] [] []]; try reflexivity. discriminate E.
Qed.

Lemma marked_minus (ls : list string) :
  forallb noLeadingSpace ls = true ->
  filter notPlus (marked "-" ls) = marked "-" ls
  /\ filter notMinus (marked "-" ls) = []
  /\ contentOf (marked "-" ls) = Samples.unlines ls.
Proof.
  induction ls as [|l ls IH]; [auto|].
  cbn [forallb]. intro H. apply andb_true_iff in H. destruct H as [Hl H].
  destruct (IH H) as (H1 & H2 & H3).
  unfold marked in *. cbn [map filter].
  unfold notPlus at 1, notMinus at 1, isPlus, isMinus.
  rewrite (startsWith_prefixed "-" l).
  rewrite (minus_is_not_plus _ (startsWith_prefixed "-" l)).
  cbn [negb]. rewrite H1, H2, contentOf_cons, H3.
  repeat split. unfold unmark. rewrite (startsWith_prefixed "-" l).
  change ("-" ++ l)%string with (String "-" l).
  rewrite (removeMarker_marked _ _ Hl).
  cbn [Samples.unlines fold_right]. now rewrite append_assoc.
Qed.

Lemma marked_plus (ls : list string) :
  forallb noLeadingSpace ls = true ->
  filter notMinus (marked "+" ls) = marked "+" ls
  /\ filter notPlus (marked "+" ls) = []
  /\ contentOf (marked "+" ls) = Samples.unlines ls.
Proof.
  induction ls as [|l ls IH]; [auto|].
  cbn [forallb]. intro H. apply andb_true_iff in H. destruct H as [Hl H].
  destruct (IH H) as (H1 & H2 & H3).
  unfold marked in *. cbn [map filter].
  unfold notPlus at 1, notMinus at 1, isPlus, isMinus.
  rewrite (startsWith_prefixed "+" l).
  rewrite (plus_is_not_minus _ (startsWith_prefixed "+" l)).
  cbn [negb]. rewrite H1, H2, contentOf_cons, H3.
  repeat split. unfold unmark. rewrite (startsWith_prefixed "+" l).
  rewrite (plus_is_not_minus _ (startsWith_prefixed "+" l)).
  change ("+" ++ l)%string with (String "+" l).
  rewrite (removeMarker_marked _ _ Hl).
  cbn [Samples.unlines fold_right]. now rewrite append_assoc.
Qed.

Lemma context_line (line : string) :
  isMinus line = false -> isPlus line = false ->
  notPlus line = true /\ notMinus line = true
  /\ unmark line = removeSpaces line.
Proof.
  unfold notPlus, notMinus, unmark, isMinus, isPlus.
  intros -> ->. auto.
Qed.

(** X22: the walk undoes the marking of a diff without context lines, up to
    the line of the header.  For a file section of a modified or renamed
    file with one hunk whose body lines are the old lines, each after [-],
    followed by the new lines, each after [+], the content of the old side
    is the rest of the location line (an empty line when nothing follows
    the pattern) followed by the old lines, and the content of the new side
    is that line followed by the new lines, each ended by a newline,
    provided that no line starts with a space. *)
Theorem marked_lines_round_trip (headers : list string)
    (oldName newName : string) (m : LocationMatch) (tail : string)
    (olds news : list string) (st : Run) :
  oneHunkInput headers oldName newName m tail
               (marked "-" olds ++ marked "+" news) ->
  oldName <> "/dev/null" -> newName <> "/dev/null" ->
  isMinus tail = false -> isPlus tail = false ->
  forallb noLeadingSpace olds = true ->
  forallb noLeadingSpace news = true ->
  forFile (oneHunkSection headers oldName newName m tail
                          (marked "-" olds ++ marked "+" news)) st
  = Return
      (addChange
         (mkChange
            (Some (mkFileChange oldName (Number (Some (g1 m)))
                     (orOne (Number (g2 m)))
                     (removeSpaces tail ++ nl ++ Samples.unlines olds)))
            (Some (mkFileChange newName (Number (Some (g3 m)))
                     (orOne (Number (g4 m)))
                     (removeSpaces tail ++ nl ++ Samples.unlines news))))
         st).
Proof.
  intros Hin Hon Hnn Htm Htp Ho Hn.
  destruct (oneHunkSection_forFile headers oldName newName m tail
              (marked "-" olds ++ marked "+" news) st Hin)
    as (_ & Hsplit & ->).
  destruct (marked_minus olds Ho) as (Ho1 & Ho2 & Ho3).
  destruct (marked_plus news Hn) as (Hn1 & Hn2 & Hn3).
  destruct (context_line tail Htm Htp) as (Hc1 & Hc2 & Hc3).
  unfold isDeleted, isAdded. apply String.eqb_neq in Hon, Hnn.
  rewrite Hon, Hnn. cbn [negb andb].
  unfold hunk, newFromFile, newToFile.
  rewrite Hsplit, walk_both. cbn [filter]. rewrite Hc1, Hc2.
  rewrite !filter_app, Ho1, Ho2, Hn1, Hn2. cbn [app]. rewrite app_nil_r.
  rewrite !contentOf_cons, Hc3, Ho3, Hn3.
  unfold withMore. cbn [name start_line line_count content append].
  now rewrite !append_assoc.
Qed.

Lemma marked_lines_round_trip_witness :
  forFile (oneHunkSection [" a/f b/f"; "index 1..2 100644"] "f" "f"
             sampleLocation ""
             (marked "-" ["int a;"; "int b;"] ++ marked "+" ["long a;"]))
          emptyRun
  = Return
      (addChange
         (mkChange
            (Some (mkFileChange "f" (Number (Some (g1 sampleLocation)))
                     (orOne (Number (g2 sampleLocation)))
                     (removeSpaces ""
                      ++ nl ++ Samples.unlines ["int a;"; "int b;"])))
            (Some (mkFileChange "f" (Number (Some (g3 sampleLocation)))
                     (orOne (Number (g4 sampleLocation)))
                     (removeSpaces "" ++ nl ++ Samples.unlines ["long a;"]))))
         emptyRun).
Proof.
  apply (marked_lines_round_trip [" a/f b/f"; "index 1..2 100644"] "f" "f"
           sampleLocation "" ["int a;"; "int b;"] ["long a;"] emptyRun);
    try reflexivity; try discriminate.
  repeat split.
Defined.
